(** * expo-cli: the [client:ios] command and the bundler-configuration builder

    A shallow embedding of

    - [packages/expo-cli/src/commands/client/index.js], the handler of the
      [client:ios] command (the "Build Provisioning Orchestrator"), and
    - the default export of the webpack-config package (the
      bundler-configuration builder),

    together with the properties the specification states about them.

    Conventions of the embedding.

    - A JavaScript string is a [string]; its characters stand for code units
      below 256, so the line terminators are LF and CR and the white space
      removed by [trim] is TAB, LF, VT, FF, CR, SPACE and NBSP.
    - [undefined] and [null] are [None]; an object that is only read is a
      record; an object used as a dictionary in insertion order is an
      association list; the merged credential payload is a [gmap].
    - An [await]ed external call is an entry of the trace, recorded with its
      arguments and with what it returned; the collaborators themselves are
      the fields of a [World].
    - The handler runs in a state-and-error monad [M]: the state carries the
      operator's pending input, the heap of credential objects and the
      trace. *)

From stdpp Require Import base strings list gmap pretty.
From Stdlib Require Import Ascii ZArith Lia.

Set Warnings "-register-all".

Local Open Scope string_scope.
Local Open Scope list_scope.

(** ** JavaScript strings *)

Module JsString.

(** Code units that are line terminators ([.] does not match them). *)
Definition isLineTerminator (c : ascii) : bool :=
  let n := nat_of_ascii c in (n =? 10)%nat || (n =? 13)%nat.

(** White space in the sense of [String.prototype.trim]. *)
Definition isTrimmable (c : ascii) : bool :=
  let n := nat_of_ascii c in
  (n =? 9)%nat || (n =? 10)%nat || (n =? 11)%nat || (n =? 12)%nat
  || (n =? 13)%nat || (n =? 32)%nat || (n =? 160)%nat.

Fixpoint trimStart (s : string) : string :=
  match s with
  | String c s' => if isTrimmable c then trimStart s' else s
  | EmptyString => EmptyString
  end.

Fixpoint allTrimmable (s : string) : bool :=
  match s with
  | String c s' => isTrimmable c && allTrimmable s'
  | EmptyString => true
  end.

Fixpoint trimEnd (s : string) : string :=
  match s with
  | String c s' => if allTrimmable s then EmptyString else String c (trimEnd s')
  | EmptyString => EmptyString
  end.

(** [value.trim()] *)
Definition trim (s : string) : string := trimEnd (trimStart s).

(** JavaScript truthiness of a string: the empty string is falsy. *)
Definition truthy (s : string) : bool :=
  match s with EmptyString => false | _ => true end.

(** [a || b] on a possibly undefined string [a]. *)
Definition orElse (a : option string) (b : string) : string :=
  match a with
  | Some s => if truthy s then s else b
  | None => b
  end.

(** [`${v}`] for a possibly undefined string. *)
Definition template (v : option string) : string :=
  match v with Some s => s | None => "undefined" end.

End JsString.

(** ** Regular expressions

  The fragment of the JavaScript regular expressions the handler uses,
  with their meaning as a relation and [test] computed by derivatives. *)

Module Regex.

Inductive regex : Type :=
| RNone : regex                       (* matches nothing *)
| REps : regex                        (* the empty string *)
| RChar (c : ascii) : regex           (* a literal character *)
| RDot : regex                        (* [.]: any but a line terminator *)
| RSeq (r1 r2 : regex) : regex
| RAlt (r1 r2 : regex) : regex
| RStar (r : regex) : regex.

(** [r+] *)
Definition RPlus (r : regex) : regex := RSeq r (RStar r).

(** [matches r s]: the whole of [s] is a match of [r]. *)
Inductive matches : regex → string → Prop :=
| MEps : matches REps ""
| MChar c : matches (RChar c) (String c "")
| MDot c : JsString.isLineTerminator c = false → matches RDot (String c "")
| MSeq r1 r2 s1 s2 :
    matches r1 s1 → matches r2 s2 → matches (RSeq r1 r2) (s1 +:+ s2)
| MAltL r1 r2 s : matches r1 s → matches (RAlt r1 r2) s
| MAltR r1 r2 s : matches r2 s → matches (RAlt r1 r2) s
| MStarNil r : matches (RStar r) ""
| MStarCons r s1 s2 :
    matches r s1 → matches (RStar r) s2 → matches (RStar r) (s1 +:+ s2).

(** [found r s]: some substring of [s] is a match of [r]; this is what
    [r.test(s)] asks for a regular expression without anchors. *)
Definition found (r : regex) (s : string) : Prop :=
  ∃ pre mid post, s = pre +:+ mid +:+ post ∧ matches r mid.

Fixpoint nullable (r : regex) : bool :=
  match r with
  | RNone => false
  | REps => true
  | RChar _ => false
  | RDot => false
  | RSeq r1 r2 => nullable r1 && nullable r2
  | RAlt r1 r2 => nullable r1 || nullable r2
  | RStar _ => true
  end.

Fixpoint deriv (c : ascii) (r : regex) : regex :=
  match r with
  | RNone => RNone
  | REps => RNone
  | RChar d => if Ascii.eqb c d then REps else RNone
  | RDot => if JsString.isLineTerminator c then RNone else REps
  | RSeq r1 r2 =>
      if nullable r1
      then RAlt (RSeq (deriv c r1) r2) (deriv c r2)
      else RSeq (deriv c r1) r2
  | RAlt r1 r2 => RAlt (deriv c r1) (deriv c r2)
  | RStar r' => RSeq (deriv c r') (RStar r')
  end.

(** Does a prefix of [s] match [r]? *)
Fixpoint matchPrefix (r : regex) (s : string) : bool :=
  nullable r ||
  match s with
  | String c s' => matchPrefix (deriv c r) s'
  | EmptyString => false
  end.

(** [r.test(s)]: try every start position from the left. *)
Fixpoint test (r : regex) (s : string) : bool :=
  matchPrefix r s ||
  match s with
  | String _ s' => test r s'
  | EmptyString => false
  end.

End Regex.

(** ** JSON values and lodash's [_.has] *)

Module Json.

(** What [JSON.parse] can produce. Numbers are restricted to integers. *)
Inductive json : Type :=
| JNull : json
| JBool (b : bool) : json
| JNum (n : Z) : json
| JStr (s : string) : json
| JArr (l : list json) : json
| JObj (l : list (string * json)) : json.

(** A JavaScript value that may be [undefined]. *)
Abbreviation value := (option json).

(** JavaScript truthiness ([if (exp)], [exp ? a : b]). *)
Definition truthy (v : value) : bool :=
  match v with
  | None => false
  | Some JNull => false
  | Some (JBool b) => b
  | Some (JNum n) => negb (n =? 0)%Z
  | Some (JStr s) => JsString.truthy s
  | Some (JArr _) => true
  | Some (JObj _) => true
  end.

(** Is [key] the canonical spelling of an array index below [n]? *)
Definition isIndexBelow (n : nat) (key : string) : bool :=
  existsb (λ i, String.eqb (pretty i) key) (seq 0 n).

Fixpoint assoc (key : string) (l : list (string * json)) : option json :=
  match l with
  | [] => None
  | (k, v) :: l' => if String.eqb k key then Some v else assoc key l'
  end.

(** [Object.prototype.hasOwnProperty.call(object, key)] on a parsed value:
    the keys of an object; the indices and [length] of an array or of a
    string; nothing on a number or a boolean. *)
Definition hasOwnProperty (object : json) (key : string) : bool :=
  match object with
  | JObj l => match assoc key l with Some _ => true | None => false end
  | JArr l => String.eqb key "length" || isIndexBelow (length l) key
  | JStr s => String.eqb key "length" || isIndexBelow (String.length s) key
  | JNull | JBool _ | JNum _ => false
  end.

(** [object[key]] for an own property ([undefined] otherwise; the inherited
    properties of arrays and strings are functions and are never walked
    into by [hasPath], which tests [hasOwnProperty] first). *)
Definition getProperty (object : json) (key : string) : value :=
  match object with
  | JObj l => assoc key l
  | JArr l =>
      if String.eqb key "length" then Some (JNum (Z.of_nat (length l)))
      else i ← List.find (λ i, String.eqb (pretty i) key) (seq 0 (length l));
           l !! i
  | JStr s =>
      if String.eqb key "length" then Some (JNum (Z.of_nat (String.length s)))
      else i ← List.find (λ i, String.eqb (pretty i) key) (seq 0 (String.length s));
           c ← String.get i s;
           Some (JStr (String c ""))
  | JNull | JBool _ | JNum _ => None
  end.

End Json.

Module Lodash.

Import Json.

(** lodash 4: [reIsPlainProp = /^\w*$/]. *)
Definition isWordChar (c : ascii) : bool :=
  let n := nat_of_ascii c in
  ((48 <=? n) && (n <=? 57) || (65 <=? n) && (n <=? 90)
   || (97 <=? n) && (n <=? 122) || (n =? 95))%nat.

Fixpoint reIsPlainProp (s : string) : bool :=
  match s with
  | EmptyString => true
  | String c s' => isWordChar c && reIsPlainProp s'
  end.

(** lodash 4: [reIsDeepProp] finds a dot or a bracketed property name.
    On a string without brackets it finds a dot. *)
Fixpoint reIsDeepProp (s : string) : bool :=
  match s with
  | EmptyString => false
  | String c s' => Ascii.eqb c "." || reIsDeepProp s'
  end.

(** lodash 4, [isKey(value, object)] for a [value] that is a string or is
    turned into one (a function is, by the two [RegExp.test] calls and by
    the [in] operator):
    [reIsPlainProp.test(value) || !reIsDeepProp.test(value) ||
     (object != null && value in Object(object))].
    The last disjunct is reached only by a [value] with a dot in it, which
    no inherited property is called, so [in] is [hasOwnProperty] there. *)
Definition isKey (value : string) (object : json) : bool :=
  reIsPlainProp value || negb (reIsDeepProp value) || hasOwnProperty object value.

(** Split at every dot. *)
Fixpoint splitDots (cur : string) (s : string) : list string :=
  match s with
  | EmptyString => [cur]
  | String c s' =>
      if Ascii.eqb c "." then cur :: splitDots "" s'
      else splitDots (cur +:+ String c "") s'
  end.

(** lodash 4, [stringToPath(string)] on a string without brackets: the
    pieces between the dots (an empty piece where two dots meet and at
    either end), and no piece at all for the empty string. *)
Definition stringToPath (s : string) : list string :=
  match s with
  | EmptyString => []
  | _ => splitDots "" s
  end.

(** lodash 4, [castPath(value, object)] for a [value] that is not an array:
    [isKey(value, object) ? [value] : stringToPath(toString(value))]. *)
Definition castPath (value : string) (object : json) : list string :=
  if isKey value object then [value] else stringToPath value.

(** lodash 4, the loop of [hasPath(object, path, baseHas)]:
    [result = object != null && hasOwnProperty.call(object, key)] at each
    key, stopping at the first failure, with [object = object[key]] in
    between. Its closing test (a failed last key that is an index of an
    array or of an [arguments] object) never holds on a parsed value, whose
    arrays own all their indices. *)
Fixpoint hasPath (object : value) (path : list string) : bool :=
  match path with
  | [] => false
  | key :: rest =>
      match object with
      | None | Some JNull => false
      | Some o =>
          hasOwnProperty o key &&
          match rest with
          | [] => true
          | _ => hasPath (getProperty o key) rest
          end
      end
  end.

(** lodash 4, [_.has(object, path)] for a [path] that is a string, or a
    function whose source text is [path]:
    [object != null && hasPath(object, path, baseHas)]. *)
Definition has (object : value) (path : string) : bool :=
  match object with
  | None | Some JNull => false
  | Some o => hasPath object (castPath path o)
  end.

End Lodash.

(** ** The data the handler works on *)

Module Model.

(** The identity: [User.getCurrentUserAsync()] returns one or [null]. *)
Record User : Type := { username : string; email : string }.

Record Team : Type := { teamId : string }.

(** What [appleApi.authenticate(options)] returns. *)
Record AuthData : Type :=
  { team : Team; appleId : string; appleIdPassword : string }.

(** The command line: [--config] and [--apple-id]. *)
Record Options : Type :=
  { config : option string; optAppleId : option string }.

(** What [isAllowedToBuild] returns. *)
Record Eligibility : Type :=
  { isAllowed : bool; errorMessage : option string }.

(** [{ ...authData, bundleIdentifier, experienceName, username }] *)
Record Context : Type :=
  { authData : AuthData;
    bundleIdentifier : string;
    experienceName : string;
    contextUsername : option string }.

Inductive Tag : Type := Clean | Dirty.

(** A credential object: its fields, and the tag the tagger keeps on it. *)
Record Credential : Type :=
  { tag : Tag; fields : gmap string string }.

Record Device : Type := { name : string; deviceNumber : string }.

(** What [createClientBuildRequest] returns; the handler reads one of the
    two properties, and either may be missing. *)
Record BuildResult : Type :=
  { registrationUrl : option string; statusUrl : option string }.

(** The argument of [createClientBuildRequest]. The two credentials are
    the objects as they are when the call is made. *)
Record BuildRequest : Type :=
  { reqUser : option User;
    reqContext : Context;
    reqDistributionCert : option Credential;
    reqPushKey : option Credential;
    reqUdids : list string;
    reqAddUdid : bool;
    reqEmail : string;
    reqCustomAppConfig : Json.value }.

(** The last argument of [Credentials.updateCredentialsForPlatform]. *)
Record StoreKey : Type :=
  { keyUsername : string;
    keyExperienceName : string;
    keyBundleIdentifier : string }.

(** [PLATFORMS] of [../build/constants], which is not among the sources;
    the handler uses [IOS] alone. *)
Inductive Platform : Type := IOS | ANDROID.

(** What can be thrown: a [CommandError(code, message)] of the CLI, or
    whatever a collaborator rejects with. *)
Inductive Error : Type :=
| CommandError (code message : string)
| ExternalError (message : string).

(** How an awaited call settles. *)
Inductive outcome (A : Type) : Type :=
| Resolved (a : A)
| Rejected (e : Error).
Arguments Resolved {A} a.
Arguments Rejected {A} e.

(** A question put to [prompt]. *)
Inductive QuestionType : Type := QInput | QConfirm.

Record Question : Type :=
  { qName : string;
    qMessage : string;
    qType : QuestionType;
    qDefault : option bool }.

(** What a [validate] callback returns: [true], or the complaint. *)
Inductive validation : Type :=
| Valid
| Invalid (message : string).

(** The [servicesDisabled] object: service name to reason, in insertion
    order (the order of [Object.keys]). *)
Abbreviation Services := (list (string * string)).

Fixpoint lookupService (key : string) (o : Services) : option string :=
  match o with
  | [] => None
  | (k, v) :: o' => if String.eqb k key then Some v else lookupService key o'
  end.

(** [o[key] = v]: an existing property keeps its place, a new one goes
    last. *)
Fixpoint assignService (key v : string) (o : Services) : Services :=
  match o with
  | [] => [(key, v)]
  | (k, v') :: o' =>
      if String.eqb k key then (k, v) :: o' else (k, v') :: assignService key v o'
  end.

(** [Object.keys(o)] *)
Definition keys (o : Services) : list string := o.*1.

(** ** The trace

    One entry per call that leaves the handler, with its arguments and,
    where the handler waits for one, its outcome. *)
Inductive Event : Type :=
| SpinnerStart (text : string)
| SpinnerSucceed (text : string)
| SpinnerWarn (text : string)
| FileExistsAsync (path : string) (r : outcome bool)
| ReadConfigJsonAsync (projectDir : string) (r : outcome Json.value)
| Authenticate (options : Options) (r : outcome AuthData)
| GetCurrentUserAsync (r : outcome (option User))
| IsAllowedToBuild (user : option User) (appleTeamId : string)
    (r : outcome Eligibility)
| GetExperienceName (user : option User) (appleTeamId : string)
    (r : outcome string)
| EnsureAppExists (context : Context) (enablePushNotifications : bool)
    (r : outcome unit)
| SelectDistributionCert (context : Context) (r : outcome (option Credential))
| SelectPushKey (context : Context) (r : outcome (option Credential))
| LogNewLine
| LogWarn (text : string)
| Log (text : string)
| LogGreen (text : string)
| LogTable (head : list string) (rows : list (list string))
| UpdateCredentialsForPlatform (platform : Platform)
    (credentials : gmap string string) (userCredentialsIds : list string)
    (key : StoreKey) (r : outcome unit)
| Prompt (question : Question)
| PromptRejected (input : string) (complaint : string)
| ListDevices (args : list string) (r : outcome (list Device))
| CreateClientBuildRequest (request : BuildRequest) (r : outcome BuildResult)
| PrintQRCode (url : option string).

(** ** The collaborators

    Everything the handler imports and calls, as functions of the
    arguments it passes, and the operator in front of the terminal. *)
Record World : Type :=
  { pathJoin : string → string → string;
    startCase : string → string;
    generateBundleIdentifier : string → string;
    fileExistsAsync : string → outcome bool;
    readConfigJsonAsync : string → outcome Json.value;
    authenticate : Options → outcome AuthData;
    getCurrentUserAsync : outcome (option User);
    isAllowedToBuild : option User → string → outcome Eligibility;
    getExperienceName : option User → string → outcome string;
    ensureAppExists : Context → bool → outcome unit;
    selectDistributionCert : Context → outcome (option Credential);
    selectPushKey : Context → outcome (option Credential);
    updateCredentialsForPlatform :
      Platform → gmap string string → list string → StoreKey → outcome unit;
    listDevices : list string → outcome (list Device);
    createClientBuildRequest : BuildRequest → outcome BuildResult;
    (* the lines the operator types at input prompts, in order *)
    operatorLines : list string;
    (* the operator's answers to yes/no prompts, in order; [None] is
       the bare return key *)
    operatorAnswers : list (option bool) }.

End Model.

(** ** The monad of the handler *)

Module Run.

Import Model.

(** A reference to a credential object. *)
Abbreviation ref := nat.

Record State : Type :=
  { lines : list string;
    answers : list (option bool);
    heap : list Credential;
    trace : list Event }.

(** How a computation ends: with a value, with an exception, or suspended
    at a prompt the operator has not answered. *)
Inductive result (A : Type) : Type :=
| Done (a : A)
| Failed (e : Error)
| Waiting.
Arguments Done {A} a.
Arguments Failed {A} e.
Arguments Waiting {A}.

Definition M (A : Type) : Type := State → result A * State.

#[global] Instance M_ret : MRet M := λ A a s, (Done a, s).

#[global] Instance M_bind : MBind M := λ A B f m s,
  match m s with
  | (Done a, s') => f a s'
  | (Failed e, s') => (Failed e, s')
  | (Waiting, s') => (Waiting, s')
  end.

(** [throw e] *)
Definition throw {A} (e : Error) : M A := λ s, (Failed e, s).

(** Append an entry to the trace. *)
Definition emit (e : Event) : M unit := λ s,
  (Done tt,
   {| lines := lines s; answers := answers s; heap := heap s;
      trace := trace s ++ [e] |}).

(** [await f(args)]: the call is recorded with its outcome; a rejection is
    thrown at the [await]. *)
Definition await {A} (call : outcome A → Event) (r : outcome A) : M A :=
  emit (call r);;
  match r with
  | Resolved a => mret a
  | Rejected e => throw e
  end.

(** A credential object returned by a selector enters the heap; the
    handler holds a reference to it. *)
Definition allocate (c : option Credential) : M (option ref) := λ s,
  match c with
  | None => (Done None, s)
  | Some c =>
      (Done (Some (length (heap s))),
       {| lines := lines s; answers := answers s; heap := heap s ++ [c];
          trace := trace s |})
  end.

(** Read the object behind a reference. *)
Definition read (r : ref) : M (option Credential) := λ s,
  (Done (heap s !! r), s).

Definition readOpt (r : option ref) : M (option Credential) :=
  match r with
  | Some r => read r
  | None => mret None
  end.

Fixpoint readAll (rs : list ref) : M (list Credential) :=
  match rs with
  | [] => mret []
  | r :: rs' =>
      c ← read r;
      cs ← readAll rs';
      mret (match c with Some c => c :: cs | None => cs end)
  end.

Definition initial (w : World) : State :=
  {| lines := operatorLines w; answers := operatorAnswers w;
     heap := []; trace := [] |}.

End Run.

(** ** The tagger *)

Module Tagger.

Import Model Run.

(** Modelled from the spec: the [tagger] module is not among the
    sources. Section 3: a credential is a reused record, tagged "clean",
    or a newly produced one, tagged "dirty". *)
Definition isDirty (c : Credential) : bool :=
  match tag c with Dirty => true | Clean => false end.

(** Modelled from the spec: [Updater] of the [tagger] module is not among
    the sources. Section 4.3: the updater is given the list of non-null
    credentials collected during the run and persists "the dirty ones, and
    only the dirty ones", "combined into a single update call"; section 3:
    a credential is "consumed once by the Tag-Tracking Updater, then
    immutable". So [updateAllAsync] hands the dirty credentials of the
    list, in order, to the update function the updater was built with,
    once, and changes no object. *)
Definition updateAllAsync (updateFn : list Credential → M unit)
    (credentialsList : list ref) : M unit :=
  credentials ← readAll credentialsList;
  updateFn (List.filter isDirty credentials).

(** Modelled from the spec: a credential with its tag cleared is the
    same fields tagged clean (section 3). *)
Definition cleared (c : Credential) : Credential :=
  {| tag := Clean; fields := fields c |}.

(** Modelled from the spec: [clearTags] of the [tagger] module is not
    among the sources. Section 4.3: for an anonymous actor "tags are
    instead cleared (no store interaction)". The objects of the list are
    changed in place: each is left tagged clean, with its fields as they
    were. *)
Definition clearTags (credentialsList : list ref) : M unit := λ s,
  (Done tt,
   {| lines := lines s; answers := answers s;
      heap := foldr (λ r h, alter cleared r h) (heap s) credentialsList;
      trace := trace s |}).

End Tagger.

(** ** Prompts *)

Module Prompt.

Import Model Run.

(** Modelled from the spec: the [prompt] module (a wrapper of the
    terminal's question library) is not among the sources. Section 6:
    "prompt-with-validation returning a single scalar"; section 7: a
    malformed input is "recovered locally by re-prompting; never
    escalates"; section 5: a prompt is a suspend point "with unbounded
    wait (operator input)". Each line the operator types goes through
    [filter] and then [validate]; a rejected line is answered with the
    complaint and the question stays open; the first accepted line, as
    filtered, is the answer. When the operator's lines run out the
    question is still open. *)
Fixpoint askUntilValid (filter : string → string)
    (validate : string → validation) (typed : list string)
    : list Event * option string * list string :=
  match typed with
  | [] => ([], None, [])
  | line :: rest =>
      match validate (filter line) with
      | Valid => ([], Some (filter line), rest)
      | Invalid complaint =>
          let '(evs, r, rest') := askUntilValid filter validate rest in
          (PromptRejected line complaint :: evs, r, rest')
      end
  end.

(** Modelled from the spec: [prompt] with an input question. The
    question is put once; the operator's lines are taken as
    [askUntilValid] says; the computation ends with the accepted value, or
    is left waiting. *)
Definition promptInput (q : Question) (filter : string → string)
    (validate : string → validation) : M string := λ s,
  let '(evs, r, rest) := askUntilValid filter validate (lines s) in
  let s' := {| lines := rest; answers := answers s; heap := heap s;
               trace := trace s ++ Prompt q :: evs |} in
  match r with
  | Some v => (Done v, s')
  | None => (Waiting, s')
  end.

(** Modelled from the spec: section 4.4, "ask a yes/no question [...],
    defaulting to yes"; section 8, the operator's answer "defaults to
    true when unanswered". A confirm question takes the operator's next
    answer, and the question's default (yes when it has none) for the bare
    return key. *)
Definition promptConfirm (q : Question) : M bool := λ s,
  let asked := trace s ++ [Prompt q] in
  match answers s with
  | [] =>
      (Waiting,
       {| lines := lines s; answers := []; heap := heap s; trace := asked |})
  | a :: rest =>
      (Done (default (default true (qDefault q)) a),
       {| lines := lines s; answers := rest; heap := heap s; trace := asked |})
  end.

End Prompt.

(** ** The handler of [client:ios] *)

Module Client.

Import Model Run.

(** The [path] argument of [_.has] at line 52 is the arrow function
    [_ => _.ios.config.googleMapsApiKey]; lodash turns it into a string,
    which is its source text. *)
Definition googleMapsPath : string := "_ => _.ios.config.googleMapsApiKey".

(** Line 35: the initial [servicesDisabled]. *)
Definition initialServices : Services :=
  [("pushNotifications",
    "not yet available until API tokens are supported for the Push Notification system")].

(** Lines 42-51: look for the custom configuration. Returns
    [appJsonPath] and [exp]. *)
Definition findCustomConfiguration (w : World) (projectDir : string)
    (options : Options) : M (string * Json.value) :=
  emit (SpinnerStart "Finding custom configuration for the Expo client...");;
  let appJsonPath :=
    JsString.orElse (config options) (pathJoin w projectDir "app.json") in
  appJsonExists ← await (FileExistsAsync appJsonPath) (fileExistsAsync w appJsonPath);
  exp ← (if appJsonExists : bool
         then await (ReadConfigJsonAsync projectDir) (readConfigJsonAsync w projectDir)
         else mret None);
  (if Json.truthy exp
   then emit (SpinnerSucceed
                ("Found custom configuration for the Expo client at " +:+ appJsonPath))
   else emit (SpinnerWarn "Unable to find custom configuration for the Expo client."));;
  mret (appJsonPath, exp).

(** Lines 52-57. *)
Definition googleMapsService (appJsonPath : string) (exp : Json.value)
    (servicesDisabled : Services) : Services :=
  if negb (Lodash.has exp googleMapsPath) then
    let disabledReason :=
      if Json.truthy exp
      then "ios.config.googleMapsApiKey does not exist in configuration file found in "
           +:+ appJsonPath
      else "No custom configuration file could be found. You will need to provide a json file with a valid ios.config.googleMapsApiKey field." in
    assignService "googleMaps" disabledReason servicesDisabled
  else servicesDisabled.

(** Lines 59-73: authenticate, find the user, ask whether a build is
    allowed. *)
Definition checkAllowed (w : World) (options : Options)
    : M (AuthData * option User) :=
  authData ← await (Authenticate options) (authenticate w options);
  user ← await GetCurrentUserAsync (getCurrentUserAsync w);
  allowed ← await (IsAllowedToBuild user (teamId (team authData)))
                  (isAllowedToBuild w user (teamId (team authData)));
  if negb (isAllowed allowed) then
    throw (CommandError "CLIENT_BUILD_REQUEST_NOT_ALLOWED"
             ("New Expo Client build request disallowed. Reason: "
              +:+ JsString.template (errorMessage allowed)))
  else mret (authData, user).

(** Lines 75-86: build the context, make sure the app exists, select the
    two credentials. *)
Definition selectCredentials (w : World) (authData : AuthData)
    (user : option User) : M (Context * option ref * option ref) :=
  let bundleIdentifier := generateBundleIdentifier w (teamId (team authData)) in
  experienceName ← await (GetExperienceName user (teamId (team authData)))
                         (getExperienceName w user (teamId (team authData)));
  let context :=
    {| authData := authData;
       bundleIdentifier := bundleIdentifier;
       experienceName := experienceName;
       contextUsername := username <$> user |} in
  await (EnsureAppExists context true) (ensureAppExists w context true);;
  selectedCert ← await (SelectDistributionCert context) (selectDistributionCert w context);
  distributionCert ← allocate selectedCert;
  selectedKey ← await (SelectPushKey context) (selectPushKey w context);
  pushKey ← allocate selectedKey;
  mret (context, distributionCert, pushKey).

(** Lines 90-97. *)
Definition pushNotificationsService (pushKey : option ref)
    (user : option User) (servicesDisabled : Services) : Services :=
  if bool_decide (pushKey = None) || bool_decide (user = None) then
    let disabledReason :=
      if bool_decide (pushKey = None)
      then "you did not upload your push credentials"
      else "we require you to be logged in to store push credentials" in
    assignService "pushNotifications"
      (JsString.orElse (lookupService "pushNotifications" servicesDisabled)
         disabledReason)
      servicesDisabled
  else servicesDisabled.

(** Lines 99-112: the warning about the disabled services. *)
Definition reportDisabledServices (w : World) (servicesDisabled : Services)
    : M unit :=
  if (0 <? length (keys servicesDisabled))%nat then
    emit LogNewLine;;
    emit (LogWarn "These services will be disabled in your custom Expo Client:");;
    emit (LogTable ["Service"; "Reason"]
            ((λ service,
                [startCase w service;
                 JsString.template (lookupService service servicesDisabled)])
               <$> keys servicesDisabled));;
    emit (Log "See https://docs.expo.io/versions/latest/guides/adhoc-builds/#fixing-disabled-services for more details.")
  else mret tt.

(** Lines 118-133: [updateCredentialsFn]. *)
Definition updateCredentialsFn (w : World) (context : Context) (user : User)
    (listOfCredentials : list Credential) : M unit :=
  if (length listOfCredentials =? 0)%nat then mret tt
  else
    let credentials :=
      foldl (λ acc credential, fields credential ∪ acc)
        {[ "teamId" := teamId (team (authData context)) ]}
        listOfCredentials in
    let key :=
      {| keyUsername := username user;
         keyExperienceName := experienceName context;
         keyBundleIdentifier := bundleIdentifier context |} in
    await (UpdateCredentialsForPlatform IOS credentials [] key)
          (updateCredentialsForPlatform w IOS credentials [] key).

(** Lines 115-139: store the credentials of a logged-in user, clear the
    tags of an anonymous one. *)
Definition storeCredentials (w : World) (context : Context)
    (user : option User) (distributionCert pushKey : option ref) : M unit :=
  let credentialsList := omap id [distributionCert; pushKey] in
  match user with
  | Some user =>
      Tagger.updateAllAsync (updateCredentialsFn w context user) credentialsList
  | None => Tagger.clearTags credentialsList
  end.

(** Line 149: [/.+@.+/]. *)
Definition emailPattern : Regex.regex :=
  Regex.RSeq (Regex.RPlus Regex.RDot)
    (Regex.RSeq (Regex.RChar "@") (Regex.RPlus Regex.RDot)).

(** Line 149: the [validate] callback. *)
Definition validateEmail (value : string) : validation :=
  if Regex.test emailPattern value then Valid
  else Invalid "That doesn't look like a valid email.".

Definition emailQuestion : Question :=
  {| qName := "email";
     qMessage := "Please enter an email address to notify, when the build is completed:";
     qType := QInput;
     qDefault := None |}.

(** Lines 141-151. *)
Definition resolveEmail (user : option User) : M string :=
  match user with
  | Some user => mret (email user)
  | None => Prompt.promptInput emailQuestion JsString.trim validateEmail
  end.

Definition addUdidQuestion : Question :=
  {| qName := "addUdid";
     qMessage := "Would you like to register a new device to use the Expo Client with?";
     qType := QConfirm;
     qDefault := Some true |}.

(** Lines 153-184: list the devices and settle [addUdid]. Returns
    [udids] and [addUdid]. *)
Definition enrollDevice (w : World) (context : Context)
    : M (list string * bool) :=
  let args :=
    ["--all-ios-profile-devices";
     appleId (authData context);
     appleIdPassword (authData context);
     teamId (team (authData context))] in
  devices ← await (ListDevices args) (listDevices w args);
  let udids := deviceNumber <$> devices in
  emit LogNewLine;;
  addUdid ←
    (if (length udids =? 0)%nat then
       emit (Log "There are no devices registered to your Apple Developer account. Please follow the instructions below to register an iOS device.");;
       mret true
     else
       emit (Log "Custom builds of the Expo Client can only be installed on devices which have been registered with Apple at build-time.");;
       emit (Log "These devices are currently registered on your Apple Developer account:");;
       emit (LogTable ["Name"; "Identifier"]
               ((λ device, [name device; deviceNumber device]) <$> devices));;
       Prompt.promptConfirm addUdidQuestion);
  mret (udids, addUdid).

(** Lines 197-219: what is printed once the request is made. *)
Definition printResult (addUdid : bool) (result : BuildResult) : M unit :=
  emit LogNewLine;;
  (if addUdid then
     emit (PrintQRCode (registrationUrl result));;
     emit (Log "Open the following link on your iOS device (or scan the QR code) and follow the instructions to install the development profile:");;
     emit LogNewLine;;
     emit (LogGreen (JsString.template (registrationUrl result)));;
     emit LogNewLine;;
     emit (Log "Please note that you can only register one iOS device per request.");;
     emit (Log "After you register your device, we'll start building your client, and you'll receive an email when it's ready to install.")
   else
     emit (PrintQRCode (statusUrl result));;
     emit (Log "Your custom Expo Client is being built! 🛠");;
     emit (Log "Open this link on your iOS device (or scan the QR code) to view build logs and install the client:");;
     emit LogNewLine;;
     emit (LogGreen (JsString.template (statusUrl result))));;
  emit LogNewLine.

(** Lines 186-219: make the request and print the result. *)
Definition requestBuild (w : World) (user : option User) (context : Context)
    (distributionCert pushKey : option ref) (udids : list string)
    (addUdid : bool) (email : string) (exp : Json.value) : M unit :=
  certNow ← readOpt distributionCert;
  keyNow ← readOpt pushKey;
  let request :=
    {| reqUser := user;
       reqContext := context;
       reqDistributionCert := certNow;
       reqPushKey := keyNow;
       reqUdids := udids;
       reqAddUdid := addUdid;
       reqEmail := email;
       reqCustomAppConfig := exp |} in
  result ← await (CreateClientBuildRequest request) (createClientBuildRequest w request);
  printResult addUdid result.

(** Lines 34-220: the handler. *)
Definition clientIos (w : World) (projectDir : string) (options : Options)
    : M unit :=
  let servicesDisabled := initialServices in
  '(appJsonPath, exp) ← findCustomConfiguration w projectDir options;
  let servicesDisabled := googleMapsService appJsonPath exp servicesDisabled in
  '(authData, user) ← checkAllowed w options;
  '(context, distributionCert, pushKey) ← selectCredentials w authData user;
  let servicesDisabled :=
    pushNotificationsService pushKey user servicesDisabled in
  reportDisabledServices w servicesDisabled;;
  storeCredentials w context user distributionCert pushKey;;
  email ← resolveEmail user;
  '(udids, addUdid) ← enrollDevice w context;
  requestBuild w user context distributionCert pushKey udids addUdid email exp.

(** A run of the command: the handler from the initial state. *)
Definition run (w : World) (projectDir : string) (options : Options)
    : result unit * State :=
  clientIos w projectDir options (initial w).

End Client.

(** ** The bundler-configuration builder *)

Module Webpack.

Import Model.

Section Builder.

(** The types of [./types] and of webpack are not among the sources; of an
    environment only the [info] flag is looked at here, and the rest of its
    fields stay abstract. *)
Context {InputFields Fields Arguments Configuration : Type}.

Record InputEnvironment : Type :=
  { inputInfo : option bool; inputFields : InputFields }.

Record Environment : Type :=
  { info : option bool; envFields : Fields }.

(** [validateEnvironment] of [./utils/validate] and the default export of
    [./webpack.config] are not among the sources; they are what the
    builder is given. *)
Variable validateEnvironment : InputEnvironment → outcome Environment.
Variable webpackConfig : Environment → Arguments → outcome Configuration.

(** The object [{}], the default of [argv]. *)
Variable noArguments : Arguments.

(** Modelled from the spec: [Diagnosis.reportAsync] is not among the
    sources. Section 1: "an optional side-channel diagnostic report",
    "transform + optional notify". A report is a message on the side: it
    is recorded with what it was given, and changes nothing. *)
Inductive Report : Type :=
| ReportAsync (config : Configuration) (environment : Environment).

(** [if (environment.info)] *)
Definition infoSet (environment : Environment) : bool :=
  default false (info environment).

(** Lines 8-21: the default export, with [argv] left out or given. It
    returns what the promise settles with, and the reports made on the
    way. *)
Definition build (env : InputEnvironment) (argv : option Arguments)
    : outcome Configuration * list Report :=
  let argv := default noArguments argv in
  match validateEnvironment env with
  | Rejected e => (Rejected e, [])
  | Resolved environment =>
      match webpackConfig environment argv with
      | Rejected e => (Rejected e, [])
      | Resolved config =>
          (Resolved config,
           if infoSet environment then [ReportAsync config environment] else [])
      end
  end.

Definition withInputInfo (b : option bool) (env : InputEnvironment)
    : InputEnvironment :=
  {| inputInfo := b; inputFields := inputFields env |}.

Definition withInfo (b : option bool) (environment : Environment)
    : Environment :=
  {| info := b; envFields := envFields environment |}.

(** [await]ing one call after the other. *)
Definition andThen {A B} (r : outcome A) (f : A → outcome B) : outcome B :=
  match r with
  | Resolved a => f a
  | Rejected e => Rejected e
  end.

End Builder.

End Webpack.

(** ** What a step of the handler does, as a relation

    A step is described by a relation between the state it starts in, the
    way it ends and the state it leaves; the description of the handler is
    the chain of the descriptions of its steps. *)

Module Steps.

Import Model Run.

Definition Spec (A : Type) : Type := State → result A → State → Prop.

(** [m] does what [R] says, from every state. *)
Definition satisfies {A} (m : M A) (R : Spec A) : Prop :=
  ∀ s, R s (m s).1 (m s).2.

(** [R], and then, if it ended with a value, [R'] of that value. *)
Definition chain {A B} (R : Spec A) (R' : A → Spec B) : Spec B :=
  λ s r s'',
    (∃ a s', R s (Done a) s' ∧ R' a s' r s'')
    ∨ (∃ e, R s (Failed e) s'' ∧ r = Failed e)
    ∨ (R s Waiting s'' ∧ r = Waiting).

(** The step added [evs] to the trace. *)
Definition added (s s' : State) (evs : list Event) : Prop :=
  trace s' = trace s ++ evs.

(** How an awaited outcome ends a computation. *)
Definition settle {A} (r : outcome A) : result A :=
  match r with
  | Resolved a => Done a
  | Rejected e => Failed e
  end.

(** The state before anything happened, and what a block of the handler
    prints from there. *)
Definition blank : State :=
  {| lines := []; answers := []; heap := []; trace := [] |}.

Definition printed (m : M unit) : list Event := trace (m blank).2.

(** *** Kinds of entries of the trace *)

Definition isConfigEvent (e : Event) : bool :=
  match e with
  | SpinnerStart _ | SpinnerSucceed _ | SpinnerWarn _
  | FileExistsAsync _ _ | ReadConfigJsonAsync _ _ => true
  | _ => false
  end.

(** A call to a credential selector. *)
Definition isSelection (e : Event) : bool :=
  match e with
  | SelectDistributionCert _ _ | SelectPushKey _ _ => true
  | _ => false
  end.

(** A call to the credential store. *)
Definition isStoreCall (e : Event) : bool :=
  match e with
  | UpdateCredentialsForPlatform _ _ _ _ _ => true
  | _ => false
  end.

(** The listing of the registered devices. *)
Definition isDeviceListing (e : Event) : bool :=
  match e with
  | ListDevices _ _ => true
  | _ => false
  end.

(** The submission of the build request. *)
Definition isSubmission (e : Event) : bool :=
  match e with
  | CreateClientBuildRequest _ _ => true
  | _ => false
  end.

(** The table of the disabled services (line 102 builds it, line 108
    prints it). *)
Definition isServicesTable (e : Event) : bool :=
  match e with
  | LogTable ["Service"; "Reason"] _ => true
  | _ => false
  end.

(** The announcement of the disabled services (line 101). *)
Definition isServicesWarning (e : Event) : bool :=
  match e with
  | LogWarn _ => true
  | _ => false
  end.

(** An entry that reads the result of the build request. *)
Definition isResultOutput (e : Event) : bool :=
  match e with
  | PrintQRCode _ | LogGreen _ => true
  | _ => false
  end.

(** What the handler does only after it has reported the disabled
    services: the store call, the prompts, the device listing and its
    table, the submission and the printing of its result. *)
Definition followsReport (e : Event) : bool :=
  match e with
  | UpdateCredentialsForPlatform _ _ _ _ _ | Prompt _ | PromptRejected _ _
  | ListDevices _ _ | CreateClientBuildRequest _ _ | PrintQRCode _
  | LogGreen _ | LogTable ["Name"; "Identifier"] _ => true
  | _ => false
  end.

(** What the handler does only before the table of the disabled services
    is printed: the configuration lookup, the gate, the selection of the
    credentials, and the announcement of the table. *)
Definition precedesReport (e : Event) : bool :=
  match e with
  | SpinnerStart _ | SpinnerSucceed _ | SpinnerWarn _
  | FileExistsAsync _ _ | ReadConfigJsonAsync _ _
  | Authenticate _ _ | GetCurrentUserAsync _ | IsAllowedToBuild _ _ _
  | GetExperienceName _ _ _ | EnsureAppExists _ _ _
  | SelectDistributionCert _ _ | SelectPushKey _ _ | LogWarn _ => true
  | _ => false
  end.

(** The specification's step 11, read on a trace: the table of the
    disabled services is printed only once the build request has been
    submitted. *)
Definition ReportedAfterSubmission (tr : list Event) : Prop :=
  ∀ before e after,
    tr = before ++ e :: after → isServicesTable e = true →
    Exists (λ x, isSubmission x = true) before.

(** The warning about the disabled services is somewhere in a trace. *)
Definition WarningRendered (tr : list Event) : Prop :=
  Exists (λ e, isServicesWarning e = true) tr
  ∧ Exists (λ e, isServicesTable e = true) tr.

(** A complaint about a line the operator typed. *)
Definition isRejection (e : Event) : bool :=
  match e with
  | PromptRejected _ _ => true
  | _ => false
  end.

(** The question about the email address, or a complaint about an
    answer to it. *)
Definition isEmailDialogue (e : Event) : bool :=
  match e with
  | Prompt q => String.eqb (qName q) "email"
  | PromptRejected _ _ => true
  | _ => false
  end.

(** A yes/no question put to the operator. *)
Definition isConfirmPrompt (e : Event) : bool :=
  match e with
  | Prompt q => match qType q with QConfirm => true | QInput => false end
  | _ => false
  end.

(** What lines 99-112 can print. *)
Definition isReportOutput (e : Event) : bool :=
  match e with
  | LogNewLine | LogWarn _ | Log _ | LogTable ["Service"; "Reason"] _ => true
  | _ => false
  end.

(** What lines 197-219 can print. *)
Definition isResultPrint (e : Event) : bool :=
  match e with
  | LogNewLine | Log _ | PrintQRCode _ | LogGreen _ => true
  | _ => false
  end.

(** The error an entry of the trace was rejected with, if it was. *)
Definition rejectedWith (e : Event) : option Error :=
  let failure {A} (r : outcome A) : option Error :=
    match r with Rejected e => Some e | Resolved _ => None end in
  match e with
  | FileExistsAsync _ r => failure r
  | ReadConfigJsonAsync _ r => failure r
  | Authenticate _ r => failure r
  | GetCurrentUserAsync r => failure r
  | IsAllowedToBuild _ _ r => failure r
  | GetExperienceName _ _ r => failure r
  | EnsureAppExists _ _ r => failure r
  | SelectDistributionCert _ r => failure r
  | SelectPushKey _ r => failure r
  | UpdateCredentialsForPlatform _ _ _ _ r => failure r
  | ListDevices _ r => failure r
  | CreateClientBuildRequest _ r => failure r
  | _ => None
  end.

(** *** The steps *)

(** Lines 42-51 end with a value, or with the error one of their calls
    was rejected with. *)
Inductive ConfigEnd : result (string * Json.value) → list Event → Prop :=
| ConfigFound appJsonPath exp evs :
    ConfigEnd (Done (appJsonPath, exp)) evs
| ConfigFailed e evs :
    Exists (λ ev, rejectedWith ev = Some e) evs → ConfigEnd (Failed e) evs.

(** Lines 42-51 touch nothing but the trace. *)
Definition ConfigSpec : Spec (string * Json.value) := λ s r s',
  lines s' = lines s ∧ answers s' = answers s ∧ heap s' = heap s
  ∧ ∃ evs,
      added s s' evs ∧ Forall (λ e, isConfigEvent e = true) evs
      ∧ ConfigEnd r evs.

(** The thrown refusal of line 69. *)
Definition notAllowed (allowed : Eligibility) : Error :=
  CommandError "CLIENT_BUILD_REQUEST_NOT_ALLOWED"
    ("New Expo Client build request disallowed. Reason: "
     +:+ JsString.template (errorMessage allowed)).

(** Lines 59-73: the five ways through. *)
Inductive GateRun (o : Options)
    : result (AuthData * option User) → list Event → Prop :=
| GateNoAuth e :
    GateRun o (Failed e) [Authenticate o (Rejected e)]
| GateNoUser a e :
    GateRun o (Failed e)
      [Authenticate o (Resolved a); GetCurrentUserAsync (Rejected e)]
| GateNoAnswer a u e :
    GateRun o (Failed e)
      [Authenticate o (Resolved a); GetCurrentUserAsync (Resolved u);
       IsAllowedToBuild u (teamId (team a)) (Rejected e)]
| GateDenied a u allowed :
    isAllowed allowed = false →
    GateRun o (Failed (notAllowed allowed))
      [Authenticate o (Resolved a); GetCurrentUserAsync (Resolved u);
       IsAllowedToBuild u (teamId (team a)) (Resolved allowed)]
| GateAllowed a u allowed :
    isAllowed allowed = true →
    GateRun o (Done (a, u))
      [Authenticate o (Resolved a); GetCurrentUserAsync (Resolved u);
       IsAllowedToBuild u (teamId (team a)) (Resolved allowed)].

Definition GateSpec (o : Options) : Spec (AuthData * option User) := λ s r s',
  lines s' = lines s ∧ answers s' = answers s ∧ heap s' = heap s
  ∧ ∃ evs, added s s' evs ∧ GateRun o r evs.

(** The context of line 77. *)
Definition contextOf (w : World) (a : AuthData) (u : option User)
    (experienceName : string) : Context :=
  {| authData := a;
     bundleIdentifier := generateBundleIdentifier w (teamId (team a));
     experienceName := experienceName;
     contextUsername := username <$> u |}.

(** The reference a selected credential gets in heap [h]. *)
Definition refIn (h : list Credential) (c : option Credential) : option ref :=
  match c with
  | Some _ => Some (length h)
  | None => None
  end.

(** Lines 75-86: the five ways through, with the heap each leaves. *)
Inductive SelectRun (w : World) (a : AuthData) (u : option User)
    (h : list Credential)
    : result (Context * option ref * option ref) → list Event
      → list Credential → Prop :=
| SelectNoName e :
    SelectRun w a u h (Failed e)
      [GetExperienceName u (teamId (team a)) (Rejected e)] h
| SelectNoApp en e :
    SelectRun w a u h (Failed e)
      [GetExperienceName u (teamId (team a)) (Resolved en);
       EnsureAppExists (contextOf w a u en) true (Rejected e)] h
| SelectNoCert en e :
    SelectRun w a u h (Failed e)
      [GetExperienceName u (teamId (team a)) (Resolved en);
       EnsureAppExists (contextOf w a u en) true (Resolved tt);
       SelectDistributionCert (contextOf w a u en) (Rejected e)] h
| SelectNoKey en d e :
    SelectRun w a u h (Failed e)
      [GetExperienceName u (teamId (team a)) (Resolved en);
       EnsureAppExists (contextOf w a u en) true (Resolved tt);
       SelectDistributionCert (contextOf w a u en) (Resolved d);
       SelectPushKey (contextOf w a u en) (Rejected e)]
      (h ++ option_list d)
| Selected en d k :
    SelectRun w a u h
      (Done (contextOf w a u en, refIn h d, refIn (h ++ option_list d) k))
      [GetExperienceName u (teamId (team a)) (Resolved en);
       EnsureAppExists (contextOf w a u en) true (Resolved tt);
       SelectDistributionCert (contextOf w a u en) (Resolved d);
       SelectPushKey (contextOf w a u en) (Resolved k)]
      (h ++ option_list d ++ option_list k).

Definition SelectSpec (w : World) (a : AuthData) (u : option User)
    : Spec (Context * option ref * option ref) := λ s r s',
  lines s' = lines s ∧ answers s' = answers s
  ∧ ∃ evs h', added s s' evs ∧ heap s' = h' ∧ SelectRun w a u (heap s) r evs h'.

(** Lines 99-112 print, and do nothing else. *)
Definition ReportSpec (w : World) (servicesDisabled : Services) : Spec unit :=
  λ s r s',
    lines s' = lines s ∧ answers s' = answers s ∧ heap s' = heap s
    ∧ r = Done tt
    ∧ added s s' (printed (Client.reportDisabledServices w servicesDisabled)).

(** The objects behind a list of references. *)
Definition objects (h : list Credential) (rs : list ref) : list Credential :=
  omap (λ r, h !! r) rs.

(** The payload of line 122. *)
Definition merged (context : Context) (l : list Credential)
    : gmap string string :=
  foldl (λ acc credential, fields credential ∪ acc)
    {[ "teamId" := teamId (team (authData context)) ]} l.

(** The value the last credential of [l] that has a field [key] gives
    it. *)
Definition latest (key : string) (l : list Credential) : option string :=
  foldl (λ found credential,
           match fields credential !! key with
           | Some v => Some v
           | None => found
           end)
    None l.

Definition storeKey (context : Context) (user : User) : StoreKey :=
  {| keyUsername := username user;
     keyExperienceName := experienceName context;
     keyBundleIdentifier := bundleIdentifier context |}.

(** The heap lines 115-139 leave: the tags are cleared for an anonymous
    user, and nothing changes for a logged-in one. *)
Definition heapAfterStore (user : option User) (h : list Credential)
    (credentialsList : list ref) : list Credential :=
  match user with
  | Some _ => h
  | None => foldr (λ r h, alter Tagger.cleared r h) h credentialsList
  end.

(** Lines 115-139: the three ways through, for the credential objects
    [l] of [credentialsList]. *)
Inductive StoreRun (context : Context)
    : option User → list Credential → result unit → list Event → Prop :=
| StoreAnonymous l :
    StoreRun context None l (Done tt) []
| StoreNothing user l :
    List.filter Tagger.isDirty l = [] →
    StoreRun context (Some user) l (Done tt) []
| StoreDirty user l o r :
    List.filter Tagger.isDirty l ≠ [] → r = settle o →
    StoreRun context (Some user) l r
      [UpdateCredentialsForPlatform IOS
         (merged context (List.filter Tagger.isDirty l)) []
         (storeKey context user) o].

Definition StoreSpec (context : Context) (user : option User)
    (distributionCert pushKey : option ref) : Spec unit := λ s r s',
  lines s' = lines s ∧ answers s' = answers s
  ∧ heap s' = heapAfterStore user (heap s) (omap id [distributionCert; pushKey])
  ∧ ∃ evs,
      added s s' evs
      ∧ StoreRun context user
          (objects (heap s) (omap id [distributionCert; pushKey])) r evs.

(** The complaint of line 149. *)
Definition rejection (line : string) : Event :=
  PromptRejected line "That doesn't look like a valid email.".

(** Lines 141-151: the three ways through, from the lines the operator
    has yet to type to the lines left. *)
Inductive EmailRun
    : option User → list string → result string → list Event → list string
      → Prop :=
| EmailKnown user typed :
    EmailRun (Some user) typed (Done (email user)) [] typed
| EmailAwaited refused :
    Forall (λ line, Client.validateEmail (JsString.trim line) ≠ Valid) refused →
    EmailRun None refused Waiting
      (Prompt Client.emailQuestion :: (rejection <$> refused)) []
| EmailTyped typed refused line rest :
    typed = refused ++ line :: rest →
    Forall (λ line, Client.validateEmail (JsString.trim line) ≠ Valid) refused →
    Client.validateEmail (JsString.trim line) = Valid →
    EmailRun None typed (Done (JsString.trim line))
      (Prompt Client.emailQuestion :: (rejection <$> refused)) rest.

Definition EmailSpec (user : option User) : Spec string := λ s r s',
  answers s' = answers s ∧ heap s' = heap s
  ∧ ∃ evs rest,
      added s s' evs ∧ lines s' = rest ∧ EmailRun user (lines s) r evs rest.

(** The arguments of the device listing (line 153). *)
Definition listingArgs (context : Context) : list string :=
  ["--all-ios-profile-devices";
   appleId (authData context);
   appleIdPassword (authData context);
   teamId (team (authData context))].

(** Lines 153-184: the four ways through. *)
Inductive EnrollRun (context : Context) (pending : list (option bool))
    : result (list string * bool) → list Event → list (option bool) → Prop :=
| EnrollNoListing e :
    EnrollRun context pending (Failed e)
      [ListDevices (listingArgs context) (Rejected e)] pending
| EnrollMust text :
    EnrollRun context pending (Done ([], true))
      [ListDevices (listingArgs context) (Resolved []); LogNewLine; Log text]
      pending
| EnrollUnanswered devices text1 text2 rows :
    devices ≠ [] → pending = [] →
    EnrollRun context pending Waiting
      [ListDevices (listingArgs context) (Resolved devices); LogNewLine;
       Log text1; Log text2; LogTable ["Name"; "Identifier"] rows;
       Prompt Client.addUdidQuestion]
      []
| EnrollAnswered devices text1 text2 rows answer rest :
    devices ≠ [] → pending = answer :: rest →
    EnrollRun context pending
      (Done (deviceNumber <$> devices, default true answer))
      [ListDevices (listingArgs context) (Resolved devices); LogNewLine;
       Log text1; Log text2; LogTable ["Name"; "Identifier"] rows;
       Prompt Client.addUdidQuestion]
      rest.

Definition EnrollSpec (context : Context) : Spec (list string * bool) :=
  λ s r s',
    lines s' = lines s ∧ heap s' = heap s
    ∧ ∃ evs rest,
        added s s' evs ∧ answers s' = rest
        ∧ EnrollRun context (answers s) r evs rest.

(** The request of line 186, from the heap as it is then. *)
Definition requestOf (h : list Credential) (user : option User)
    (context : Context) (distributionCert pushKey : option ref)
    (udids : list string) (addUdid : bool) (email : string)
    (exp : Json.value) : BuildRequest :=
  {| reqUser := user;
     reqContext := context;
     reqDistributionCert := distributionCert ≫= (h !!.);
     reqPushKey := pushKey ≫= (h !!.);
     reqUdids := udids;
     reqAddUdid := addUdid;
     reqEmail := email;
     reqCustomAppConfig := exp |}.

(** Lines 186-219: the two ways through. *)
Inductive BuildRun (request : BuildRequest) (addUdid : bool)
    : result unit → list Event → Prop :=
| BuildRejected e :
    BuildRun request addUdid (Failed e)
      [CreateClientBuildRequest request (Rejected e)]
| BuildAccepted result :
    BuildRun request addUdid (Done tt)
      (CreateClientBuildRequest request (Resolved result)
       :: printed (Client.printResult addUdid result)).

Definition BuildSpec (user : option User) (context : Context)
    (distributionCert pushKey : option ref) (udids : list string)
    (addUdid : bool) (email : string) (exp : Json.value) : Spec unit :=
  λ s r s',
    lines s' = lines s ∧ answers s' = answers s ∧ heap s' = heap s
    ∧ ∃ evs,
        added s s' evs
        ∧ BuildRun
            (requestOf (heap s) user context distributionCert pushKey udids
               addUdid email exp)
            addUdid r evs.

(** The whole handler. *)
Definition Anatomy (w : World) (o : Options) : Spec unit :=
  chain ConfigSpec (λ '(appJsonPath, exp),
  chain (GateSpec o) (λ '(a, user),
  chain (SelectSpec w a user) (λ '(context, distributionCert, pushKey),
  chain (ReportSpec w
           (Client.pushNotificationsService pushKey user
              (Client.googleMapsService appJsonPath exp Client.initialServices)))
        (λ _,
  chain (StoreSpec context user distributionCert pushKey) (λ _,
  chain (EmailSpec user) (λ email,
  chain (EnrollSpec context) (λ '(udids, addUdid),
  BuildSpec user context distributionCert pushKey udids addUdid email exp))))))).

End Steps.

(** ** Worlds to run the handler in *)

Module Examples.

Import Model.

Definition auth : AuthData :=
  {| team := {| teamId := "TEAM123" |};
     appleId := "dev@example.com";
     appleIdPassword := "secret" |}.

Definition ada : User := {| username := "ada"; email := "ada@example.com" |}.

Definition certificate (t : Tag) : Credential :=
  {| tag := t;
     fields := {[ "certP12" := "MIIK" ]} |}.

Definition pushKey (t : Tag) : Credential :=
  {| tag := t;
     fields := {[ "apnsKeyId" := "KEY1" ]} |}.

Definition iPhone : Device :=
  {| name := "Ada's iPhone"; deviceNumber := "00008020-000000000000002E" |}.

(** A configuration that has [ios.config.googleMapsApiKey]. *)
Definition mapsConfig : Json.json :=
  Json.JObj
    [("name", Json.JStr "my-app");
     ("ios",
      Json.JObj
        [("config", Json.JObj [("googleMapsApiKey", Json.JStr "AIzaSyKEY")])])].

Definition noOptions : Options := {| config := None; optAppleId := None |}.

(** A world in which every collaborator answers, as chosen by the
    arguments. *)
Definition world (exp : Json.value) (user : option User)
    (allowed : Eligibility) (cert key : option Credential)
    (devices : list Device) (typed : list string)
    (answered : list (option bool)) : World :=
  {| pathJoin := λ a b, a +:+ "/" +:+ b;
     startCase := λ service,
       if String.eqb service "pushNotifications" then "Push Notifications"
       else if String.eqb service "googleMaps" then "Google Maps"
       else service;
     generateBundleIdentifier := λ teamId, "dev.expo.client." +:+ teamId;
     fileExistsAsync := λ _,
       Resolved (match exp with Some _ => true | None => false end);
     readConfigJsonAsync := λ _, Resolved exp;
     authenticate := λ _, Resolved auth;
     getCurrentUserAsync := Resolved user;
     isAllowedToBuild := λ _ _, Resolved allowed;
     getExperienceName := λ _ _, Resolved "@ada/expo-client";
     ensureAppExists := λ _ _, Resolved tt;
     selectDistributionCert := λ _, Resolved cert;
     selectPushKey := λ _, Resolved key;
     updateCredentialsForPlatform := λ _ _ _ _, Resolved tt;
     listDevices := λ _, Resolved devices;
     createClientBuildRequest := λ request,
       Resolved
         (if reqAddUdid request
          then {| registrationUrl := Some "https://expo.io/register/42";
                  statusUrl := None |}
          else {| registrationUrl := None;
                  statusUrl := Some "https://expo.io/builds/42" |});
     operatorLines := typed;
     operatorAnswers := answered |}.

Definition yes : Eligibility := {| isAllowed := true; errorMessage := None |}.

(** Scenario A of the specification: an anonymous actor and no registered
    device. The operator first mistypes the address. *)
Definition scenarioA : World :=
  world None None yes (Some (certificate Dirty)) (Some (pushKey Dirty)) []
    ["ada.example.com"; "  ada@example.com "] [].

(** Scenario B: a logged-in actor, a reused certificate and a new push
    key, one registered device, and an operator who declines to register
    another. *)
Definition scenarioB : World :=
  world None (Some ada) yes (Some (certificate Clean)) (Some (pushKey Dirty))
    [iPhone] [] [Some false].

(** Scenario C: the build service refuses. *)
Definition scenarioC : World :=
  world None (Some ada)
    {| isAllowed := false; errorMessage := Some "quota exceeded" |}
    (Some (certificate Dirty)) (Some (pushKey Dirty)) [iPhone] [] [Some true].

(** A project whose configuration has the Google Maps key. *)
Definition withMapsKey : World :=
  world (Some mapsConfig) (Some ada) yes (Some (certificate Clean))
    (Some (pushKey Clean)) [] [] [].

(** The context the handler builds in these worlds. *)
Definition context (user : option User) : Context :=
  {| authData := auth;
     bundleIdentifier := "dev.expo.client.TEAM123";
     experienceName := "@ada/expo-client";
     contextUsername := username <$> user |}.

(** A bundler whose validation keeps the environment as it is and whose
    configuration is the project root followed by the arguments. *)
Definition validate (env : @Webpack.InputEnvironment string)
    : outcome (@Webpack.Environment string) :=
  Resolved {| Webpack.info := Webpack.inputInfo env;
              Webpack.envFields := Webpack.inputFields env |}.

Definition configure (environment : @Webpack.Environment string)
    (argv : string) : outcome string :=
  Resolved (Webpack.envFields environment +:+ argv).

Definition quietEnvironment : @Webpack.InputEnvironment string :=
  {| Webpack.inputInfo := Some false; Webpack.inputFields := "/project" |}.

End Examples.

(** * Proofs *)

(** ** The monad *)

Module RunFacts.

Import Model Run Steps.

Ltac unfold_monad :=
  cbv beta iota zeta delta
    [mbind M_bind mret M_ret await emit throw allocate read readOpt] in *.

Ltac tidy_trace :=
  cbn [trace lines answers heap fst snd Json.truthy negb] in *;
  rewrite <- ?app_assoc; cbn [app] in *.

Lemma satisfies_bind {A B} (m : M A) (f : A → M B) R R' :
  satisfies m R → (∀ a, satisfies (f a) (R' a)) →
  satisfies (m ≫= f) (chain R R').
Proof.
  intros Hm Hf s. specialize (Hm s). unfold chain, mbind, M_bind.
  destruct (m s) as [[a | e |] s1]; cbn [fst snd] in *.
  - left. exists a, s1. split; [exact Hm | apply Hf].
  - right; left. exists e. split; [exact Hm | reflexivity].
  - right; right. split; [exact Hm | reflexivity].
Qed.

Lemma satisfies_ext {A} (m : M A) (R R' : Spec A) :
  satisfies m R → (∀ s r s', R s r s' → R' s r s') → satisfies m R'.
Proof. intros Hm HR s. apply HR, Hm. Qed.

End RunFacts.

(** ** The steps of the handler *)

Module StepFacts.

Import Model Run Steps RunFacts.

Lemma findCustomConfiguration_spec w projectDir o :
  satisfies (Client.findCustomConfiguration w projectDir o) ConfigSpec.
Proof.
  intros s. unfold Client.findCustomConfiguration, ConfigSpec, added.
  unfold_monad.
  destruct (fileExistsAsync w _) as [[|] | e]; tidy_trace.
  - destruct (readConfigJsonAsync w projectDir) as [exp | e]; tidy_trace.
    + destruct (Json.truthy exp); tidy_trace;
        (do 3 (split; [reflexivity |]); eexists;
         split; [reflexivity | split; repeat constructor]).
    + do 3 (split; [reflexivity |]); eexists.
      split; [reflexivity | split; [repeat constructor |]].
      constructor. do 2 apply Exists_cons_tl. by apply Exists_cons_hd.
  - do 3 (split; [reflexivity |]); eexists.
    split; [reflexivity | split; repeat constructor].
  - do 3 (split; [reflexivity |]); eexists.
    split; [reflexivity | split; [repeat constructor |]].
    constructor. apply Exists_cons_tl. by apply Exists_cons_hd.
Qed.

Lemma checkAllowed_spec w o :
  satisfies (Client.checkAllowed w o) (GateSpec o).
Proof.
  intros s. unfold Client.checkAllowed, GateSpec, added. unfold_monad.
  destruct (authenticate w o) as [a | e]; tidy_trace.
  2: { repeat split; eexists; split; [reflexivity | constructor]. }
  destruct (getCurrentUserAsync w) as [u | e]; tidy_trace.
  2: { repeat split; eexists; split; [reflexivity | constructor]. }
  destruct (isAllowedToBuild w u _) as [allowed | e]; tidy_trace.
  2: { repeat split; eexists; split; [reflexivity | constructor]. }
  destruct (isAllowed allowed) eqn:Hallowed; tidy_trace.
  - repeat split; eexists; split; [reflexivity | by constructor].
  - repeat split; eexists; split; [reflexivity | by apply GateDenied].
Qed.

Lemma allocate_run c s :
  allocate c s =
  (Done (refIn (heap s) c),
   {| lines := lines s; answers := answers s;
      heap := heap s ++ option_list c; trace := trace s |}).
Proof.
  destruct c as [c |]; cbn; [reflexivity |]. rewrite app_nil_r. by destruct s.
Qed.

Lemma selectCredentials_spec w a u :
  satisfies (Client.selectCredentials w a u) (SelectSpec w a u).
Proof.
  intros s. unfold Client.selectCredentials, SelectSpec, added.
  cbv beta iota zeta delta [mbind M_bind mret M_ret await emit throw].
  destruct (getExperienceName w u _) as [en | e]; tidy_trace.
  2: { do 2 (split; [reflexivity |]). do 2 eexists.
       do 2 (split; [reflexivity |]). constructor. }
  fold (contextOf w a u en).
  destruct (ensureAppExists w _ true) as [[] | e]; tidy_trace.
  2: { do 2 (split; [reflexivity |]). do 2 eexists.
       do 2 (split; [reflexivity |]). constructor. }
  destruct (selectDistributionCert w _) as [d | e]; tidy_trace.
  2: { do 2 (split; [reflexivity |]). do 2 eexists.
       do 2 (split; [reflexivity |]). constructor. }
  rewrite allocate_run. tidy_trace.
  destruct (selectPushKey w _) as [k | e]; tidy_trace.
  - rewrite allocate_run. tidy_trace.
    do 2 (split; [reflexivity |]). do 2 eexists.
    do 2 (split; [reflexivity |]). constructor.
  - do 2 (split; [reflexivity |]). do 2 eexists.
    do 2 (split; [reflexivity |]). constructor.
Qed.

(** A block that only prints adds what it prints from the blank state. *)
Lemma reportDisabledServices_run w sd s :
  Client.reportDisabledServices w sd s =
  (Done tt,
   {| lines := lines s; answers := answers s; heap := heap s;
      trace := trace s ++ printed (Client.reportDisabledServices w sd) |}).
Proof.
  unfold printed, Client.reportDisabledServices.
  destruct (0 <? length (keys sd))%nat; unfold_monad; tidy_trace.
  - reflexivity.
  - rewrite app_nil_r. by destruct s.
Qed.

Lemma reportDisabledServices_spec w sd :
  satisfies (Client.reportDisabledServices w sd) (ReportSpec w sd).
Proof.
  intros s. rewrite reportDisabledServices_run. by repeat split.
Qed.

Lemma printResult_run addUdid result s :
  Client.printResult addUdid result s =
  (Done tt,
   {| lines := lines s; answers := answers s; heap := heap s;
      trace := trace s ++ printed (Client.printResult addUdid result) |}).
Proof.
  unfold printed, Client.printResult.
  destruct addUdid; unfold_monad; tidy_trace; reflexivity.
Qed.

Lemma readAll_run rs s : readAll rs s = (Done (objects (heap s) rs), s).
Proof.
  induction rs as [| r rs IH]; [reflexivity |].
  cbn [readAll]. unfold_monad. rewrite IH. cbn [objects omap list_omap].
  fold (objects (heap s) rs). by destruct (heap s !! r).
Qed.

Lemma storeCredentials_spec w context user distributionCert pushKey :
  satisfies (Client.storeCredentials w context user distributionCert pushKey)
    (StoreSpec context user distributionCert pushKey).
Proof.
  intros s. unfold Client.storeCredentials, StoreSpec, added.
  destruct user as [user |].
  - unfold Tagger.updateAllAsync. unfold_monad. rewrite readAll_run.
    unfold Client.updateCredentialsFn.
    destruct (List.filter Tagger.isDirty _) as [| c dirty] eqn:Hdirty.
    + cbn. do 3 (split; [reflexivity |]). exists [].
      split; [by rewrite app_nil_r | by constructor].
    + cbn [length Nat.eqb]. unfold_monad. fold (merged context (c :: dirty)).
      fold (storeKey context user). rewrite <- Hdirty.
      destruct (updateCredentialsForPlatform w _ _ _ _) as [[] | e] eqn:Hstore;
        tidy_trace; (do 3 (split; [reflexivity |])); eexists;
        (split; [reflexivity |]);
        (eapply StoreDirty; [by rewrite Hdirty | reflexivity]).
  - cbn. do 3 (split; [reflexivity |]). exists [].
    split; [by rewrite app_nil_r | constructor].
Qed.

Lemma askUntilValid_email typed :
  ∃ refused,
    Forall (λ line, Client.validateEmail (JsString.trim line) ≠ Valid) refused
    ∧ (Prompt.askUntilValid JsString.trim Client.validateEmail typed).1.1
      = rejection <$> refused
    ∧ let r := (Prompt.askUntilValid JsString.trim Client.validateEmail typed).1.2 in
      let rest := (Prompt.askUntilValid JsString.trim Client.validateEmail typed).2 in
      (r = None ∧ typed = refused ∧ rest = [])
      ∨ (∃ line, typed = refused ++ line :: rest
                 ∧ Client.validateEmail (JsString.trim line) = Valid
                 ∧ r = Some (JsString.trim line)).
Proof.
  induction typed as [| line typed (refused & Hrefused & Hevs & IH)].
  - exists []. cbn. repeat split; [constructor | by left].
  - cbn [Prompt.askUntilValid].
    destruct (Client.validateEmail (JsString.trim line)) as [| complaint] eqn:Hv.
    + exists []. cbn. repeat split; [constructor |]. right. by exists line.
    + destruct (Prompt.askUntilValid _ _ typed) as [[evs r] rest].
      cbn [fst snd] in *. exists (line :: refused). repeat split.
      * constructor; [by rewrite Hv | exact Hrefused].
      * cbn. rewrite Hevs. f_equal. unfold rejection. f_equal.
        unfold Client.validateEmail in Hv.
        destruct (Regex.test _ _); congruence.
      * destruct IH as [(-> & -> & ->) | (l & -> & Hl & ->)];
          [by left | right; by exists l].
Qed.

Lemma resolveEmail_spec user :
  satisfies (Client.resolveEmail user) (EmailSpec user).
Proof.
  intros s. unfold Client.resolveEmail, EmailSpec, added.
  destruct user as [user |].
  - cbn. do 2 (split; [reflexivity |]). exists [], (lines s).
    split; [by rewrite app_nil_r | split; [reflexivity | constructor]].
  - unfold Prompt.promptInput.
    destruct (askUntilValid_email (lines s)) as (refused & Hrefused & Hevs & H).
    destruct (Prompt.askUntilValid _ _ (lines s)) as [[evs r] rest].
    cbn [fst snd] in *. subst evs.
    destruct H as [(-> & Hlines & ->) | (line & Hlines & Hline & ->)];
      cbn [fst snd trace lines answers heap]; (do 2 (split; [reflexivity |]));
      do 2 eexists; (do 2 (split; [reflexivity |])).
    + rewrite Hlines. by constructor.
    + by eapply EmailTyped.
Qed.

Lemma enrollDevice_spec w context :
  satisfies (Client.enrollDevice w context) (EnrollSpec context).
Proof.
  intros s. unfold Client.enrollDevice, EnrollSpec, added.
  fold (listingArgs context). cbv zeta. unfold_monad.
  destruct (listDevices w _) as [devices | e]; tidy_trace.
  2: { do 2 (split; [reflexivity |]). do 2 eexists.
       do 2 (split; [reflexivity |]). constructor. }
  destruct devices as [| device devices].
  - cbn. rewrite <- app_assoc. cbn.
    do 2 (split; [reflexivity |]). do 2 eexists.
    do 2 (split; [reflexivity |]). constructor.
  - cbn [fmap list_fmap length Nat.eqb]. unfold Prompt.promptConfirm.
    unfold_monad. tidy_trace.
    destruct (answers s) as [| answer rest] eqn:Hanswers; tidy_trace;
      do 2 (split; [reflexivity |]); do 2 eexists;
      do 2 (split; [reflexivity |]).
    + by apply (EnrollUnanswered context [] (device :: devices)).
    + by apply (EnrollAnswered context (answer :: rest) (device :: devices)).
Qed.

Lemma requestBuild_spec w user context distributionCert pushKey udids addUdid
    email exp :
  satisfies
    (Client.requestBuild w user context distributionCert pushKey udids addUdid
       email exp)
    (BuildSpec user context distributionCert pushKey udids addUdid email exp).
Proof.
  intros s. unfold Client.requestBuild, BuildSpec, added, requestOf.
  destruct distributionCert as [rd |], pushKey as [rk |];
    cbv zeta; unfold_monad; tidy_trace; cbn [option_bind];
    (destruct (createClientBuildRequest w _) as [result | e]; tidy_trace;
     [ rewrite printResult_run; tidy_trace |];
     do 3 (split; [reflexivity |]); eexists; (split; [reflexivity |]);
     constructor).
Qed.

(** The handler is the chain of its steps. *)
Lemma clientIos_anatomy w projectDir o :
  satisfies (Client.clientIos w projectDir o) (Anatomy w o).
Proof.
  unfold Client.clientIos, Anatomy. cbv zeta.
  apply satisfies_bind; [apply findCustomConfiguration_spec |].
  intros [appJsonPath exp].
  apply satisfies_bind; [apply checkAllowed_spec |]. intros [a user].
  apply satisfies_bind; [apply selectCredentials_spec |].
  intros [[context distributionCert] pushKey].
  apply satisfies_bind; [apply reportDisabledServices_spec |]. intros _.
  apply satisfies_bind; [apply storeCredentials_spec |]. intros _.
  apply satisfies_bind; [apply resolveEmail_spec |]. intros email.
  apply satisfies_bind; [apply enrollDevice_spec |]. intros [udids addUdid].
  apply requestBuild_spec.
Qed.

End StepFacts.

(** ** The regular expressions *)

Module RegexFacts.

Import Regex.

Lemma append_step c s t : String c s +:+ t = String c (s +:+ t).
Proof. reflexivity. Qed.

Lemma append_empty s1 s2 : s1 +:+ s2 = "" → s1 = "" ∧ s2 = "".
Proof. by destruct s1. Qed.

(** How a string that starts with [c] splits in two. *)
Lemma append_cons s1 s2 c s :
  s1 +:+ s2 = String c s →
  (s1 = "" ∧ s2 = String c s) ∨ (∃ s1', s1 = String c s1' ∧ s = s1' +:+ s2).
Proof.
  destruct s1 as [| c1 s1]; intros H; [by left |].
  rewrite append_step in H. injection H as -> <-. right. by exists s1.
Qed.

Lemma nullable_matches r : nullable r = true ↔ matches r "".
Proof.
  split.
  - induction r; cbn; intros H; try discriminate.
    + constructor.
    + apply andb_prop in H as [H1 H2].
      apply (MSeq _ _ "" ""); auto.
    + apply orb_prop in H as [H | H]; [apply MAltL | apply MAltR]; auto.
    + constructor.
  - intros H. remember "" as s eqn:Hs.
    induction H; cbn; try discriminate; try reflexivity.
    + apply append_empty in Hs as [-> ->]. by rewrite IHmatches1, IHmatches2.
    + by rewrite IHmatches.
    + rewrite IHmatches by done. apply orb_true_r.
Qed.

(** A match of [r*] that starts with [c] starts with a match of [r] that
    starts with [c]. *)
Lemma star_cons r c s :
  matches (RStar r) (String c s) →
  ∃ s1 s2, s = s1 +:+ s2 ∧ matches r (String c s1) ∧ matches (RStar r) s2.
Proof.
  intros H. remember (RStar r) as r' eqn:Hr. remember (String c s) as s' eqn:Hs.
  induction H as [| | | | | | | r0 s1 s2 H1 _ H2 IH]; try discriminate.
  injection Hr as ->.
  apply append_cons in Hs as [[-> ->] | (s1' & -> & ->)].
  - by apply IH.
  - by exists s1', s2.
Qed.

Lemma deriv_matches c r s : matches (deriv c r) s ↔ matches r (String c s).
Proof.
  revert s. induction r as [| | d | | r1 IH1 r2 IH2 | r1 IH1 r2 IH2 | r IH];
    intros s; cbn [deriv].
  - split; intros H; inversion H.
  - split; intros H; inversion H.
  - destruct (Ascii.eqb_spec c d) as [-> | Hcd]; split; intros H; inversion H;
      subst; [constructor | constructor | congruence].
  - destruct (JsString.isLineTerminator c) eqn:Hc; split; intros H;
      inversion H; subst; [congruence | by constructor | constructor].
  - assert (Hseq : matches (RSeq (deriv c r1) r2) s
                   → matches (RSeq r1 r2) (String c s)).
    { intros H. inversion H as [| | | ? ? s1 s2 H1 H2 | | | |]; subst.
      apply IH1 in H1. apply (MSeq _ _ (String c s1) s2 H1 H2). }
    assert (Hback : matches (RSeq r1 r2) (String c s)
                    → matches (RSeq (deriv c r1) r2) s
                      ∨ (matches r1 "" ∧ matches (deriv c r2) s)).
    { intros H. inversion H as [| | | ? ? s1 s2 H1 H2 Hr Hs | | | |]; subst.
      apply append_cons in Hs as [[-> ->] | (s1' & -> & ->)].
      - right. split; [exact H1 | by apply IH2].
      - left. apply MSeq; [by apply IH1 | exact H2]. }
    destruct (nullable r1) eqn:Hnull; split; intros H.
    + inversion H; subst; [by apply Hseq |].
      apply (MSeq _ _ "" (String c s)); [by apply nullable_matches |].
      by apply IH2.
    + apply Hback in H as [H | [_ H]]; [by apply MAltL | by apply MAltR].
    + by apply Hseq.
    + apply Hback in H as [H | [H _]]; [exact H |].
      apply nullable_matches in H. congruence.
  - split; intros H; inversion H; subst;
      ((apply MAltL; by apply IH1) || (apply MAltR; by apply IH2)).
  - split; intros H.
    + inversion H as [| | | ? ? s1 s2 H1 H2 | | | |]; subst.
      apply IH in H1. apply (MStarCons _ (String c s1) s2 H1 H2).
    + apply star_cons in H as (s1 & s2 & -> & H1 & H2).
      apply MSeq; [by apply IH | exact H2].
Qed.

Lemma matchPrefix_spec r s :
  matchPrefix r s = true ↔ ∃ s1 s2, s = s1 +:+ s2 ∧ matches r s1.
Proof.
  revert r. induction s as [| c s IH]; intros r; cbn [matchPrefix].
  - rewrite orb_false_r, nullable_matches. split.
    + intros H. by exists "", "".
    + intros (s1 & s2 & Hs & H). symmetry in Hs.
      by apply append_empty in Hs as [-> _].
  - rewrite orb_true_iff, nullable_matches, IH. split.
    + intros [H | (s1 & s2 & -> & H)].
      * by exists "", (String c s).
      * exists (String c s1), s2. split; [done | by apply deriv_matches].
    + intros (s1 & s2 & Hs & H). symmetry in Hs.
      apply append_cons in Hs as [[-> ->] | (s1' & -> & ->)]; [by left |].
      right. exists s1', s2. split; [done | by apply deriv_matches].
Qed.

(** [test] finds a match exactly when there is one. *)
Lemma test_found r s : test r s = true ↔ found r s.
Proof.
  unfold found. induction s as [| c s IH]; cbn [test].
  - rewrite orb_false_r, matchPrefix_spec. split.
    + intros (s1 & s2 & Hs & H). by exists "", s1, s2.
    + intros (pre & mid & post & Hs & H). symmetry in Hs.
      apply append_empty in Hs as [-> Hs].
      apply append_empty in Hs as [-> ->]. by exists "", "".
  - rewrite orb_true_iff, matchPrefix_spec, IH. split.
    + intros [(s1 & s2 & Hs & H) | (pre & mid & post & -> & H)].
      * by exists "", s1, s2.
      * by exists (String c pre), mid, post.
    + intros (pre & mid & post & Hs & H). symmetry in Hs.
      apply append_cons in Hs as [[-> Hs] | (pre' & -> & ->)].
      * left. by exists mid, post.
      * right. by exists pre', mid, post.
Qed.

(** Line 149 accepts a value exactly when [/.+@.+/] has a match in it. *)
Lemma validateEmail_found value :
  Client.validateEmail value = Model.Valid ↔ found Client.emailPattern value.
Proof.
  unfold Client.validateEmail. rewrite <- test_found.
  by destruct (test Client.emailPattern value).
Qed.

(** Line 149 on a few values. *)
Lemma validateEmail_examples :
  Client.validateEmail "ada@example.com" = Model.Valid
  ∧ Client.validateEmail "a@b" = Model.Valid
  ∧ Client.validateEmail "ada.example.com"
    = Model.Invalid "That doesn't look like a valid email."
  ∧ Client.validateEmail "@example.com"
    = Model.Invalid "That doesn't look like a valid email."
  ∧ Client.validateEmail "ada@"
    = Model.Invalid "That doesn't look like a valid email."
  ∧ Client.validateEmail "" = Model.Invalid "That doesn't look like a valid email."
  ∧ JsString.trim "  ada@example.com " = "ada@example.com".
Proof. repeat split; vm_compute; reflexivity. Qed.

End RegexFacts.

(** ** Runs of the handler *)

Module RunShape.

Import Model Run Steps RunFacts StepFacts RegexFacts.

Lemma report_kind w sd :
  Forall (λ e, isReportOutput e = true)
    (printed (Client.reportDisabledServices w sd)).
Proof.
  unfold printed, Client.reportDisabledServices.
  destruct (0 <? length (keys sd))%nat; cbn; repeat constructor.
Qed.

Lemma result_kind addUdid result :
  Forall (λ e, isResultPrint e = true)
    (printed (Client.printResult addUdid result)).
Proof. destruct addUdid; cbn; repeat constructor. Qed.

Lemma rejection_kind refused :
  Forall (λ e, isRejection e = true) (rejection <$> refused).
Proof. induction refused; cbn; by constructor. Qed.

(** The chain of steps of a run, one goal for each place it can end. *)
Ltac start_run w pd o r sf H :=
  unfold Client.run in *;
  pose proof (clientIos_anatomy w pd o (initial w)) as H;
  destruct (Client.clientIos w pd o (initial w)) as [r sf];
  cbn [fst snd] in *; unfold Anatomy in H.

Ltac next_step H :=
  let a := fresh "a" in
  let s := fresh "s" in
  let Hstep := fresh "Hstep" in
  destruct H as [(a & s & Hstep & H) | [(? & Hstep & ->) | (Hstep & ->)]];
  [ lazymatch type of a with
    | (_ * _ * _)%type => destruct a as [[? ?] ?]
    | (_ * _)%type => destruct a as [? ?]
    | unit => destruct a
    | _ => idtac
    end | | ].

Ltac open_steps :=
  unfold ConfigSpec, GateSpec, SelectSpec, ReportSpec, EmailSpec, EnrollSpec,
    BuildSpec, StoreSpec, added in *;
  repeat match goal with
    | H : _ ∧ _ |- _ => destruct H
    | H : ∃ _, _ |- _ => destruct H
    | H : Done _ = Done _ |- _ => clear H
    | H : Failed _ = Done _ |- _ => discriminate H
    | H : Waiting = Done _ |- _ => discriminate H
    | H : ConfigEnd _ _ |- _ => inversion H; subst; clear H
    | H : GateRun _ _ _ |- _ => inversion H; subst; clear H
    | H : SelectRun _ _ _ _ _ _ _ |- _ => inversion H; subst; clear H
    | H : EnrollRun _ _ _ _ _ |- _ => inversion H; subst; clear H
    | H : StoreRun _ _ _ _ _ |- _ => inversion H; subst; clear H
    | H : EmailRun _ _ _ _ _ |- _ => inversion H; subst; clear H
    | H : BuildRun _ _ _ _ |- _ => inversion H; subst; clear H
    end.

Ltac flatten_states :=
  repeat match goal with
    | H : ?x = heap ?s |- _ =>
        is_var s; lazymatch x with heap _ => fail | _ => symmetry in H end
    | H : ?x = lines ?s |- _ =>
        is_var s; lazymatch x with lines _ => fail | _ => symmetry in H end
    | H : ?x = answers ?s |- _ =>
        is_var s; lazymatch x with answers _ => fail | _ => symmetry in H end
    end;
  repeat match goal with
    | H : trace ?s = _ |- _ => is_var s; try rewrite H in *; clear H
    | H : lines ?s = _ |- _ => is_var s; try rewrite H in *; clear H
    | H : answers ?s = _ |- _ => is_var s; try rewrite H in *; clear H
    | H : heap ?s = _ |- _ => is_var s; try rewrite H in *; clear H
    end;
  cbn [initial trace heap lines answers app] in *;
  rewrite <- ?app_assoc in *; cbn [app] in *.

Ltac anatomize w pd o :=
  let r := fresh "r" in
  let sf := fresh "sf" in
  let H := fresh "H" in
  start_run w pd o r sf H;
  repeat next_step H;
  open_steps; flatten_states.

(** The parts of a trace that stay symbolic, replaced by what is known
    of their entries: what the report prints, what the printing of the
    result prints, and the complaints about the lines the operator typed. *)
Ltac abstract_report_chunk :=
  match goal with
  | |- context [printed (Client.reportDisabledServices ?w ?sd)] =>
      let F := fresh "Hreport" in
      pose proof (report_kind w sd) as F;
      generalize dependent (printed (Client.reportDisabledServices w sd));
      intros ? F
  end.

Ltac abstract_result_chunk :=
  match goal with
  | |- context [printed (Client.printResult ?b ?res)] =>
      let F := fresh "Hprinted" in
      pose proof (result_kind b res) as F;
      generalize dependent (printed (Client.printResult b res));
      intros ? F
  end.

Ltac abstract_rejection_chunk :=
  match goal with
  | |- context [rejection <$> ?refused] =>
      let F := fresh "Hrejections" in
      pose proof (rejection_kind refused) as F;
      generalize dependent (rejection <$> refused);
      intros ? F
  end.

Ltac abstract_chunks :=
  repeat first
    [ abstract_report_chunk | abstract_result_chunk | abstract_rejection_chunk ].

Ltac abstract_report :=
  repeat first [ abstract_report_chunk | abstract_rejection_chunk ].

Ltac abstract_rest :=
  repeat first [ abstract_result_chunk | abstract_rejection_chunk ].

Ltac abstract_prints :=
  repeat first [ abstract_report_chunk | abstract_result_chunk ].

(** Where in an explicit trace an entry can be. *)
Ltac locate H :=
  repeat (rewrite in_app_iff in H || cbn [In] in H);
  repeat match type of H with
    | _ ∨ _ => destruct H as [H | H]
    end;
  try contradiction;
  try discriminate H;
  try (match goal with
       | F : Forall _ ?l |- _ =>
           match type of H with
           | In _ l =>
               apply (proj1 (List.Forall_forall _ _) F) in H; cbn in H;
               discriminate H
           end
       end);
  try (apply (proj1 (List.Forall_forall _ _) (rejection_kind _)) in H;
       discriminate H).

(** A property of every entry of an explicit trace. *)
Ltac forall_kinds :=
  repeat (rewrite Forall_app || rewrite Forall_cons || rewrite Forall_nil);
  repeat match goal with |- _ ∧ _ => split end;
  try exact I; try reflexivity;
  try (match goal with
       | F : Forall _ ?l |- Forall _ ?l =>
           eapply Forall_impl;
           [ exact F
           | let e := fresh "e" in
             let He := fresh "He" in
             intros e He; destruct e; try discriminate He; cbn;
             repeat split; reflexivity ]
       end).

(** A proof that an entry is in an explicit trace. *)
Ltac show_in :=
  solve [ repeat first [ left; reflexivity | right | apply in_or_app ] ].

Lemma filter_kind_nil (P Q : Event → bool) l :
  Forall (λ e, P e = true) l → (∀ e, P e = true → Q e = false) →
  List.filter Q l = [].
Proof.
  intros Hl HPQ. induction Hl as [| e l He _ IH]; [reflexivity |].
  cbn. by rewrite (HPQ e He).
Qed.

(** The entries of one kind in an explicit trace. *)
Ltac filter_trace :=
  repeat first
    [ rewrite List.filter_app
    | match goal with
      | F : Forall (λ e, ?P e = true) ?l |- context [List.filter ?Q ?l] =>
          rewrite (filter_kind_nil P Q l F)
            by (let e := fresh "e" in
                let He := fresh "He" in
                intros e He; destruct e; try discriminate He; reflexivity)
      end
    | progress cbn ].

(** The heap of a run holds the selected credentials, the certificate
    first. *)
Lemma objects_selected d k :
  objects (option_list d ++ option_list k)
    (omap id [refIn [] d; refIn (option_list d) k])
  = option_list d ++ option_list k.
Proof. by destruct d, k. Qed.

Lemma cleared_selected d k :
  heapAfterStore None (option_list d ++ option_list k)
    (omap id [refIn [] d; refIn (option_list d) k])
  = Tagger.cleared <$> (option_list d ++ option_list k).
Proof. by destruct d, k. Qed.

Lemma request_cleared d k user context udids addUdid email exp :
  let request :=
    requestOf (Tagger.cleared <$> (option_list d ++ option_list k)) user
      context (refIn [] d) (refIn (option_list d) k) udids addUdid email exp in
  reqDistributionCert request = Tagger.cleared <$> d
  ∧ reqPushKey request = Tagger.cleared <$> k.
Proof. by destruct d, k. Qed.

(** What the payload of the store call holds under a key. *)
Lemma merged_lookup context l key :
  merged context l !! key
  = match latest key l with
    | Some v => Some v
    | None =>
        if decide (key = "teamId")
        then Some (teamId (team (authData context)))
        else None
    end.
Proof.
  unfold merged, latest.
  induction l as [| c l IH] using rev_ind.
  - cbn. destruct (decide (key = "teamId")) as [-> | Hkey].
    + apply lookup_singleton_eq.
    + by apply lookup_singleton_ne.
  - rewrite !foldl_app. cbn [foldl]. rewrite lookup_union, IH.
    destruct (fields c !! key); destruct (foldl _ None l);
      try reflexivity; by destruct (decide (key = "teamId")).
Qed.

(** The large terms of a trace stay folded when it is simplified. *)
#[global] Arguments merged : simpl never.
#[global] Arguments requestOf : simpl never.
#[global] Arguments heapAfterStore : simpl never.
#[global] Arguments contextOf : simpl never.
#[global] Arguments storeKey : simpl never.
#[global] Arguments listingArgs : simpl never.

(** Finding the place of an entry [x] in a trace, with [R] holding of all
    that comes before. *)
Section Split.
Context (R : Event → Prop) (x : Event) (after : list Event).

Lemma split_here : ∃ before, x :: after = before ++ x :: after ∧ Forall R before.
Proof. exists []. by split. Qed.

Lemma split_later e l :
  R e →
  (∃ before, l = before ++ x :: after ∧ Forall R before) →
  ∃ before, e :: l = before ++ x :: after ∧ Forall R before.
Proof.
  intros He (before & -> & Hbefore). exists (e :: before). split; [done |].
  by constructor.
Qed.

Lemma split_past chunk l :
  Forall R chunk →
  (∃ before, l = before ++ x :: after ∧ Forall R before) →
  ∃ before, chunk ++ l = before ++ x :: after ∧ Forall R before.
Proof.
  intros Hchunk (before & -> & Hbefore). exists (chunk ++ before).
  split; [by rewrite app_assoc |]. by apply Forall_app.
Qed.
End Split.

Ltac find_split :=
  repeat first
    [ apply split_past; [forall_kinds |]
    | apply split_later; [by repeat split |] ];
  apply split_here.

Lemma pushNotifications_kept appJsonPath exp pushKey user :
  Client.pushNotificationsService pushKey user
    (Client.googleMapsService appJsonPath exp Client.initialServices)
  = Client.googleMapsService appJsonPath exp Client.initialServices.
Proof.
  unfold Client.pushNotificationsService, Client.googleMapsService.
  destruct (negb (Lodash.has exp Client.googleMapsPath));
    destruct (bool_decide (pushKey = None) || bool_decide (user = None));
    reflexivity.
Qed.

Lemma pushNotifications_lookup appJsonPath exp :
  lookupService "pushNotifications"
    (Client.googleMapsService appJsonPath exp Client.initialServices)
  = Some "not yet available until API tokens are supported for the Push Notification system".
Proof.
  unfold Client.googleMapsService.
  destruct (negb (Lodash.has exp Client.googleMapsPath)); reflexivity.
Qed.

Lemma report_printed w appJsonPath exp :
  ∃ rows,
    printed (Client.reportDisabledServices w
               (Client.googleMapsService appJsonPath exp Client.initialServices))
    = [LogNewLine;
       LogWarn "These services will be disabled in your custom Expo Client:";
       LogTable ["Service"; "Reason"] rows;
       Log "See https://docs.expo.io/versions/latest/guides/adhoc-builds/#fixing-disabled-services for more details."]
    ∧ In [startCase w "pushNotifications";
          "not yet available until API tokens are supported for the Push Notification system"]
         rows.
Proof.
  unfold Client.googleMapsService.
  destruct (negb (Lodash.has exp Client.googleMapsPath));
    eexists; (split; [reflexivity | by left]).
Qed.

(** What the report prints, spelled out. *)
Ltac explicit_report :=
  rewrite pushNotifications_kept in *;
  match goal with
  | |- context [printed (Client.reportDisabledServices ?w
                  (Client.googleMapsService ?p ?exp Client.initialServices))] =>
      let rows := fresh "rows" in
      let Hrows := fresh "Hrows" in
      let Hprinted := fresh "Hprinted" in
      destruct (report_printed w p exp) as (rows & Hprinted & Hrows);
      rewrite Hprinted in *; clear Hprinted; cbn [app] in *
  end.

(** No entry of a computed trace is of the kind [H] says one is. *)
Ltac refute_exists H :=
  vm_compute in H;
  repeat (apply Exists_cons in H as [H | H]; [discriminate H |]);
  by apply Exists_nil in H.

Lemma services_never_empty appJsonPath exp pushKey user :
  let reported :=
    Client.pushNotificationsService pushKey user
      (Client.googleMapsService appJsonPath exp Client.initialServices) in
  reported = Client.googleMapsService appJsonPath exp Client.initialServices
  ∧ lookupService "pushNotifications" reported
    = Some "not yet available until API tokens are supported for the Push Notification system"
  ∧ keys reported ≠ [].
Proof.
  cbv zeta. rewrite pushNotifications_kept, pushNotifications_lookup.
  do 2 (split; [reflexivity |]). unfold Client.googleMapsService.
  by destruct (negb (Lodash.has exp Client.googleMapsPath)).
Qed.

Lemma filter_rejections refused :
  List.filter isEmailDialogue (rejection <$> refused) = rejection <$> refused.
Proof. induction refused as [| line refused IH]; cbn; [done | by f_equal]. Qed.

Lemma refused_not_found refused :
  Forall (λ line, Client.validateEmail (JsString.trim line) ≠ Valid) refused →
  Forall (λ line, ¬ Regex.found Client.emailPattern (JsString.trim line)) refused.
Proof.
  intros H. eapply Forall_impl; [exact H |].
  intros line Hline Hfound. by apply Hline, validateEmail_found.
Qed.

End RunShape.

(** ** The properties of the specification *)

Module ClientFacts.

Import Model Run Steps RunFacts StepFacts RegexFacts RunShape.

(** *** What happens in the scenarios of the specification *)

Lemma scenarioA_anonymous :
  In (GetCurrentUserAsync (Resolved None))
     (trace (Client.run Examples.scenarioA "/project" Examples.noOptions).2).
Proof. vm_compute. show_in. Qed.

Lemma scenarioA_key_selected :
  In (SelectPushKey (Examples.context None)
        (Resolved (Some (Examples.pushKey Dirty))))
     (trace (Client.run Examples.scenarioA "/project" Examples.noOptions).2).
Proof. vm_compute. show_in. Qed.

Lemma scenarioA_completes :
  (Client.run Examples.scenarioA "/project" Examples.noOptions).1 = Done ().
Proof. vm_compute. reflexivity. Qed.

Lemma scenarioB_logged_in :
  In (GetCurrentUserAsync (Resolved (Some Examples.ada)))
     (trace (Client.run Examples.scenarioB "/project" Examples.noOptions).2).
Proof. vm_compute. show_in. Qed.

Lemma scenarioB_certificate_selected :
  In (SelectDistributionCert (Examples.context (Some Examples.ada))
        (Resolved (Some (Examples.certificate Clean))))
     (trace (Client.run Examples.scenarioB "/project" Examples.noOptions).2).
Proof. vm_compute. show_in. Qed.

Lemma scenarioB_key_selected :
  In (SelectPushKey (Examples.context (Some Examples.ada))
        (Resolved (Some (Examples.pushKey Dirty))))
     (trace (Client.run Examples.scenarioB "/project" Examples.noOptions).2).
Proof. vm_compute. show_in. Qed.

Lemma scenarioB_devices_listed :
  In (ListDevices ["--all-ios-profile-devices"; "dev@example.com"; "secret";
                   "TEAM123"]
        (Resolved [Examples.iPhone]))
     (trace (Client.run Examples.scenarioB "/project" Examples.noOptions).2).
Proof. vm_compute. show_in. Qed.

Lemma scenarioC_refused :
  In (IsAllowedToBuild (Some Examples.ada) "TEAM123"
        (Resolved {| isAllowed := false;
                     errorMessage := Some "quota exceeded" |}))
     (trace (Client.run Examples.scenarioC "/project" Examples.noOptions).2).
Proof. vm_compute. show_in. Qed.

(** C1. When the eligibility query of a run answers [isAllowed = false],
    the run ends with the error [CLIENT_BUILD_REQUEST_NOT_ALLOWED] whose
    message ends with the reason the service gave; the query is the last
    entry of the trace, no credential object exists, and the trace has no
    credential selection, no call to the credential store, no device
    listing and no build submission. *)
Theorem denied_run_aborts w projectDir o user appleTeamId reason :
  In (IsAllowedToBuild user appleTeamId
        (Resolved {| isAllowed := false; errorMessage := reason |}))
     (trace (Client.run w projectDir o).2) →
  (Client.run w projectDir o).1
  = Failed (CommandError "CLIENT_BUILD_REQUEST_NOT_ALLOWED"
              ("New Expo Client build request disallowed. Reason: "
               +:+ JsString.template reason))
  ∧ (∃ before,
       trace (Client.run w projectDir o).2
       = before ++ [IsAllowedToBuild user appleTeamId
                      (Resolved {| isAllowed := false;
                                   errorMessage := reason |})])
  ∧ heap (Client.run w projectDir o).2 = []
  ∧ Forall (λ e, isSelection e = false ∧ isStoreCall e = false
                 ∧ isDeviceListing e = false ∧ isSubmission e = false)
      (trace (Client.run w projectDir o).2).
Proof.
  anatomize w projectDir o; abstract_chunks; intros Hin; locate Hin;
    injection Hin as -> -> Hallowed;
    try (subst; cbn in *; discriminate).
  subst allowed. split; [reflexivity |]. split.
  - eexists (_ ++ [_; _]). rewrite <- app_assoc. reflexivity.
  - split; [reflexivity | forall_kinds].
Qed.

Lemma denied_run_aborts_witness :
  In (IsAllowedToBuild (Some Examples.ada) "TEAM123"
        (Resolved {| isAllowed := false;
                     errorMessage := Some "quota exceeded" |}))
     (trace (Client.run Examples.scenarioC "/project" Examples.noOptions).2)
  ∧ (Client.run Examples.scenarioC "/project" Examples.noOptions).1
    = Failed (CommandError "CLIENT_BUILD_REQUEST_NOT_ALLOWED"
                "New Expo Client build request disallowed. Reason: quota exceeded").
Proof.
  split; [exact scenarioC_refused |].
  exact (proj1 (denied_run_aborts _ _ _ _ _ _ scenarioC_refused)).
Defined.

(** C2. In a run whose identity provider answers [null], the trace has no
    call to the credential store; and once both selectors have answered,
    the heap holds the selected credentials with their tags cleared and
    their fields as they were, which is also how a build request carries
    them. *)
Theorem anonymous_run_never_stores w projectDir o :
  In (GetCurrentUserAsync (Resolved None))
     (trace (Client.run w projectDir o).2) →
  Forall (λ e, isStoreCall e = false) (trace (Client.run w projectDir o).2)
  ∧ ∀ context k,
      In (SelectPushKey context (Resolved k))
         (trace (Client.run w projectDir o).2) →
      ∃ d,
        In (SelectDistributionCert context (Resolved d))
           (trace (Client.run w projectDir o).2)
        ∧ heap (Client.run w projectDir o).2
          = Tagger.cleared <$> (option_list d ++ option_list k)
        ∧ ∀ request r,
            In (CreateClientBuildRequest request r)
               (trace (Client.run w projectDir o).2) →
            reqDistributionCert request = Tagger.cleared <$> d
            ∧ reqPushKey request = Tagger.cleared <$> k.
Proof.
  anatomize w projectDir o; abstract_chunks; intros Hin; locate Hin;
    try (injection Hin as ->);
    (split; [forall_kinds |]);
    intros context k' Hk; locate Hk.
  all: injection Hk as <- <-.
  all: rewrite ?cleared_selected.
  all: eexists; split; [show_in |]; split; [reflexivity |].
  all: intros request r Hrequest; locate Hrequest.
  all: injection Hrequest as <- _; apply request_cleared.
Qed.

Lemma anonymous_run_never_stores_witness :
  In (GetCurrentUserAsync (Resolved None))
     (trace (Client.run Examples.scenarioA "/project" Examples.noOptions).2)
  ∧ Forall (λ e, isStoreCall e = false)
      (trace (Client.run Examples.scenarioA "/project" Examples.noOptions).2)
  ∧ ∃ d,
      heap (Client.run Examples.scenarioA "/project" Examples.noOptions).2
      = Tagger.cleared
          <$> (option_list d ++ option_list (Some (Examples.pushKey Dirty))).
Proof.
  destruct (anonymous_run_never_stores _ _ _ scenarioA_anonymous) as [Hnone Hcleared].
  destruct (Hcleared _ _ scenarioA_key_selected) as (d & _ & Hheap & _).
  split; [exact scenarioA_anonymous |]. split; [exact Hnone |]. exists d. exact Hheap.
Defined.

(** C3. In a run whose identity provider answers a user, the credential
    store is called at most once. Once both selectors have answered: if
    none of the selected credentials is tagged dirty the store is not
    called; otherwise it is called once, for iOS, under the key made of
    the user's name, the experience name and the bundle identifier, with
    the payload merged from the dirty credentials alone, in order, over
    the team id. Under each key the payload holds what the last dirty
    credential with that field gives it, and the team id under [teamId]
    when none has it. *)
Theorem authenticated_run_stores_dirty_once w projectDir o user :
  In (GetCurrentUserAsync (Resolved (Some user)))
     (trace (Client.run w projectDir o).2) →
  (length (List.filter isStoreCall (trace (Client.run w projectDir o).2)) ≤ 1)%nat
  ∧ (∀ context l key,
       merged context l !! key
       = match latest key l with
         | Some v => Some v
         | None =>
             if decide (key = "teamId")
             then Some (teamId (team (authData context)))
             else None
         end)
  ∧ ∀ context d k,
      In (SelectDistributionCert context (Resolved d))
         (trace (Client.run w projectDir o).2) →
      In (SelectPushKey context (Resolved k))
         (trace (Client.run w projectDir o).2) →
      match List.filter Tagger.isDirty (option_list d ++ option_list k) with
      | [] => List.filter isStoreCall (trace (Client.run w projectDir o).2) = []
      | dirty =>
          ∃ r,
            List.filter isStoreCall (trace (Client.run w projectDir o).2)
            = [UpdateCredentialsForPlatform IOS (merged context dirty) []
                 {| keyUsername := username user;
                    keyExperienceName := experienceName context;
                    keyBundleIdentifier := bundleIdentifier context |} r]
      end.
Proof.
  anatomize w projectDir o; rewrite ?objects_selected in *;
    abstract_chunks; intros Hin; locate Hin;
    try (injection Hin as ->);
    (split; [filter_trace; lia |]);
    (split; [apply merged_lookup |]);
    intros context d' k' Hd Hk; locate Hd; locate Hk.
  all: simplify_eq.
  all: match goal with
       | H : List.filter Tagger.isDirty _ = [] |- _ => rewrite H
       | H : List.filter Tagger.isDirty _ ≠ [] |- _ =>
           destruct (List.filter Tagger.isDirty _); [done |]
       end.
  all: filter_trace; try reflexivity; by eexists.
Qed.

Lemma authenticated_run_stores_dirty_once_witness :
  In (GetCurrentUserAsync (Resolved (Some Examples.ada)))
     (trace (Client.run Examples.scenarioB "/project" Examples.noOptions).2)
  ∧ ∃ r,
      List.filter isStoreCall
        (trace (Client.run Examples.scenarioB "/project" Examples.noOptions).2)
      = [UpdateCredentialsForPlatform IOS
           (merged (Examples.context (Some Examples.ada))
              [Examples.pushKey Dirty])
           []
           {| keyUsername := "ada";
              keyExperienceName := "@ada/expo-client";
              keyBundleIdentifier := "dev.expo.client.TEAM123" |}
           r].
Proof.
  destruct (authenticated_run_stores_dirty_once _ _ _ _ scenarioB_logged_in)
    as (_ & _ & Hstored).
  split; [exact scenarioB_logged_in |]. exact (Hstored _ _ _ scenarioB_certificate_selected scenarioB_key_selected).
Defined.

(** C4. In a run whose device listing answers: if the list is empty, no
    yes/no question is put to the operator and the build request is made
    with [addUdid = true]; if it is not, exactly one yes/no question is
    put, whose default is yes, and then either the operator has no answer
    and the run waits without any submission, or the build request is made
    with the operator's answer (yes for the bare return key) as
    [addUdid]. *)
Theorem device_enrollment_decision w projectDir o args devices :
  In (ListDevices args (Resolved devices))
     (trace (Client.run w projectDir o).2) →
  match devices with
  | [] =>
      Forall (λ e, isConfirmPrompt e = false)
        (trace (Client.run w projectDir o).2)
      ∧ (∃ request r,
           In (CreateClientBuildRequest request r)
              (trace (Client.run w projectDir o).2))
      ∧ ∀ request r,
          In (CreateClientBuildRequest request r)
             (trace (Client.run w projectDir o).2) →
          reqAddUdid request = true
  | _ :: _ =>
      List.filter isConfirmPrompt (trace (Client.run w projectDir o).2)
      = [Prompt Client.addUdidQuestion]
      ∧ qType Client.addUdidQuestion = QConfirm
      ∧ qDefault Client.addUdidQuestion = Some true
      ∧ match operatorAnswers w with
        | [] =>
            (Client.run w projectDir o).1 = Waiting
            ∧ Forall (λ e, isSubmission e = false)
                (trace (Client.run w projectDir o).2)
        | answer :: _ =>
            (∃ request r,
               In (CreateClientBuildRequest request r)
                  (trace (Client.run w projectDir o).2))
            ∧ ∀ request r,
                In (CreateClientBuildRequest request r)
                   (trace (Client.run w projectDir o).2) →
                reqAddUdid request = default true answer
        end
  end.
Proof.
  anatomize w projectDir o; abstract_chunks; intros Hin; locate Hin;
    simplify_eq;
    try match goal with
      | H : ?devices ≠ [] |- _ =>
          is_var devices; destruct devices as [| ? ?]; [done |]
      end.
  all: try match goal with
      | H : operatorAnswers _ = _ |- _ => rewrite H
      | H : _ = operatorAnswers _ |- _ => rewrite <- H
      end.
  all: repeat match goal with
      | |- _ ∧ _ => split
      | |- Forall _ _ => forall_kinds
      | |- List.filter _ _ = _ => by filter_trace
      | |- ∃ _ _, In _ _ => do 2 eexists; show_in
      | |- ∀ _ _, In _ _ → _ =>
          let Hr := fresh "Hr" in intros ? ? Hr; locate Hr; by simplify_eq
      | |- _ => reflexivity
      end.
Qed.

Lemma device_enrollment_decision_witness :
  In (ListDevices ["--all-ios-profile-devices"; "dev@example.com"; "secret";
                   "TEAM123"]
        (Resolved [Examples.iPhone]))
     (trace (Client.run Examples.scenarioB "/project" Examples.noOptions).2)
  ∧ ∀ request r,
      In (CreateClientBuildRequest request r)
         (trace (Client.run Examples.scenarioB "/project" Examples.noOptions).2) →
      reqAddUdid request = false.
Proof.
  destruct (device_enrollment_decision _ _ _ _ _ scenarioB_devices_listed)
    as (_ & _ & _ & _ & Hanswer).
  split; [exact scenarioB_devices_listed | exact Hanswer].
Defined.

(** C5. A run that completes ends with one build request, answered, and
    then with the printing of its result; before that nothing is submitted
    and nothing of a result is printed; and the printing reads one property
    of the result, twice: [registrationUrl] when the request carries
    [addUdid = true], and [statusUrl] when it carries [false]. *)
Theorem completed_run_renders_matching_variant w projectDir o :
  (Client.run w projectDir o).1 = Done () →
  ∃ request result,
    (∃ before,
       trace (Client.run w projectDir o).2
       = before ++ CreateClientBuildRequest request (Resolved result)
                   :: printed (Client.printResult (reqAddUdid request) result)
       ∧ Forall (λ e, isSubmission e = false ∧ isResultOutput e = false) before)
    ∧ List.filter isResultOutput
        (printed (Client.printResult (reqAddUdid request) result))
      = (let url := if reqAddUdid request
                    then registrationUrl result else statusUrl result in
         [PrintQRCode url; LogGreen (JsString.template url)]).
Proof.
  anatomize w projectDir o; intros Hdone; try discriminate Hdone;
    abstract_report;
    match goal with
    | |- context [CreateClientBuildRequest ?request (Resolved ?result) :: _] =>
        exists request, result
    end;
    unfold requestOf at 1; cbn [reqAddUdid]; (split; [find_split |]).
  all: try match goal with
      | |- context [default true ?answer] =>
          is_var answer; destruct answer as [[|] |]
      end; reflexivity.
Qed.

Lemma completed_run_renders_matching_variant_witness :
  (Client.run Examples.scenarioA "/project" Examples.noOptions).1 = Done ()
  ∧ ∃ request result before,
      trace (Client.run Examples.scenarioA "/project" Examples.noOptions).2
      = before ++ CreateClientBuildRequest request (Resolved result)
                  :: printed (Client.printResult (reqAddUdid request) result).
Proof.
  destruct (completed_run_renders_matching_variant _ _ _ scenarioA_completes)
    as (request & result & (before & Htrace & _) & _).
  split; [exact scenarioA_completes |]. exists request, result, before. exact Htrace.
Defined.

(** C6, as the code has it. In a run that gets past the selection of
    the credentials, the table of the disabled services is printed exactly
    once: nothing before it is a store call, a prompt, the device listing,
    the build submission or the printing of a result, and nothing after it
    belongs to the configuration lookup, the gate or the selection of the
    credentials. *)
Theorem report_rendered_once_before_store w projectDir o context k :
  In (SelectPushKey context (Resolved k))
     (trace (Client.run w projectDir o).2) →
  ∃ rows after,
    (∃ before,
       trace (Client.run w projectDir o).2
       = before ++ LogTable ["Service"; "Reason"] rows :: after
       ∧ Forall (λ e, isServicesTable e = false ∧ followsReport e = false)
           before)
    ∧ Forall (λ e, isServicesTable e = false ∧ precedesReport e = false) after.
Proof.
  anatomize w projectDir o; try explicit_report; abstract_rest;
    intros Hin; locate Hin.
  all: match goal with
    | |- context [LogTable ["Service"; "Reason"] ?rows :: ?after] =>
        exists rows, after
    end.
  all: split; [find_split | forall_kinds].
Qed.

Lemma report_rendered_once_before_store_witness :
  In (SelectPushKey (Examples.context None)
        (Resolved (Some (Examples.pushKey Dirty))))
     (trace (Client.run Examples.scenarioA "/project" Examples.noOptions).2)
  ∧ ∃ rows after before,
      trace (Client.run Examples.scenarioA "/project" Examples.noOptions).2
      = before ++ LogTable ["Service"; "Reason"] rows :: after
      ∧ Forall (λ e, isServicesTable e = false ∧ followsReport e = false)
          before.
Proof.
  destruct (report_rendered_once_before_store _ _ _ _ _ scenarioA_key_selected)
    as (rows & after & (before & Htrace & Hbefore) & _).
  split; [exact scenarioA_key_selected |]. exists rows, after, before.
  split; [exact Htrace | exact Hbefore].
Defined.

(** C6, as the specification has it, fails: in the completed run of
    scenario A the table is printed and no build request has been
    submitted before it. *)
Lemma report_rendered_before_submission :
  ¬ ReportedAfterSubmission
      (trace (Client.run Examples.scenarioA "/project" Examples.noOptions).2).
Proof.
  intros H.
  pose (tr := trace (Client.run Examples.scenarioA "/project"
                       Examples.noOptions).2).
  specialize (H (take 12 tr) (default LogNewLine (tr !! 12%nat))
                (drop 13 tr)).
  assert (Hthere : Exists (λ x, isSubmission x = true) (take 12 tr)).
  { apply H; vm_compute; reflexivity. }
  refute_exists Hthere.
Qed.

(** C10, as the code has it. In a run that gets past the selection of the
    credentials: [servicesDisabled] has [pushNotifications] with the fixed
    reason from line 35 on, the assignment of line 96 leaves the object as
    it was whatever the push key and the user are, the object is never
    empty, and the warning and the table are printed, once each, the table
    with the row of [pushNotifications] and its fixed reason. *)
Theorem pushNotifications_reason_is_fixed w projectDir o context k :
  In (SelectPushKey context (Resolved k))
     (trace (Client.run w projectDir o).2) →
  lookupService "pushNotifications" Client.initialServices
  = Some "not yet available until API tokens are supported for the Push Notification system"
  ∧ (∀ appJsonPath exp pushKey user,
       let reported :=
         Client.pushNotificationsService pushKey user
           (Client.googleMapsService appJsonPath exp Client.initialServices) in
       reported = Client.googleMapsService appJsonPath exp Client.initialServices
       ∧ lookupService "pushNotifications" reported
         = Some "not yet available until API tokens are supported for the Push Notification system"
       ∧ keys reported ≠ [])
  ∧ ∃ rows,
      In [startCase w "pushNotifications";
          "not yet available until API tokens are supported for the Push Notification system"]
         rows
      ∧ List.filter isServicesWarning (trace (Client.run w projectDir o).2)
        = [LogWarn "These services will be disabled in your custom Expo Client:"]
      ∧ List.filter isServicesTable (trace (Client.run w projectDir o).2)
        = [LogTable ["Service"; "Reason"] rows].
Proof.
  anatomize w projectDir o; try explicit_report; abstract_rest;
    intros Hin; locate Hin.
  all: split; [reflexivity |]; split; [apply services_never_empty |].
  all: match goal with
    | |- context [LogTable ["Service"; "Reason"] ?rows :: _] => exists rows
    end.
  all: split; [assumption |]; split; by filter_trace.
Qed.

Lemma pushNotifications_reason_is_fixed_witness :
  In (SelectPushKey (Examples.context None)
        (Resolved (Some (Examples.pushKey Dirty))))
     (trace (Client.run Examples.scenarioA "/project" Examples.noOptions).2)
  ∧ ∃ rows,
      In ["Push Notifications";
          "not yet available until API tokens are supported for the Push Notification system"]
         rows
      ∧ List.filter isServicesTable
          (trace (Client.run Examples.scenarioA "/project" Examples.noOptions).2)
        = [LogTable ["Service"; "Reason"] rows].
Proof.
  destruct (pushNotifications_reason_is_fixed _ _ _ _ _ scenarioA_key_selected)
    as (_ & _ & rows & Hrow & _ & Htable).
  split; [exact scenarioA_key_selected |]. exists rows. split; [exact Hrow | exact Htable].
Defined.

(** C10, as stated for every run, fails: the run of scenario C is refused
    at the gate and prints no warning. *)
Lemma warning_not_rendered_when_denied :
  ¬ WarningRendered
      (trace (Client.run Examples.scenarioC "/project" Examples.noOptions).2).
Proof. intros [H _]. refute_exists H. Qed.

(** With the function of line 52 for a path, [_.has] looks for a property
    named after the text of the function up to its first dot; an object
    that has no property of that name, and none named as the whole text,
    is found wanting whatever else it holds. *)
Lemma has_function_path o :
  Json.hasOwnProperty o "_ => _" = false →
  Json.hasOwnProperty o Client.googleMapsPath = false →
  Lodash.has (Some o) Client.googleMapsPath = false.
Proof.
  intros Hown Hwhole.
  assert (Hcast : Lodash.castPath Client.googleMapsPath o
                  = ["_ => _"; "ios"; "config"; "googleMapsApiKey"]).
  { unfold Lodash.castPath, Lodash.isKey. rewrite Hwhole. reflexivity. }
  unfold Lodash.has. rewrite Hcast. cbn [Lodash.hasPath]. rewrite Hown.
  by destruct o.
Qed.

(** So does line 52 disable Google Maps for every such configuration. *)
Lemma googleMaps_always_disabled appJsonPath o servicesDisabled :
  Json.hasOwnProperty o "_ => _" = false →
  Json.hasOwnProperty o Client.googleMapsPath = false →
  is_Some (lookupService "googleMaps"
             (Client.googleMapsService appJsonPath (Some o) servicesDisabled)).
Proof.
  intros Hown Hwhole. unfold Client.googleMapsService.
  rewrite (has_function_path o Hown Hwhole). cbn [negb].
  generalize (if Json.truthy (Some o)
              then "ios.config.googleMapsApiKey does not exist in configuration file found in "
                   +:+ appJsonPath
              else "No custom configuration file could be found. You will need to provide a json file with a valid ios.config.googleMapsApiKey field.").
  intros reason. induction servicesDisabled as [| [key v] rest IH]; cbn.
  - by eexists.
  - destruct (String.eqb key "googleMaps") eqn:Hkey; cbn; rewrite Hkey;
      [by eexists | exact IH].
Qed.

(** C7, where the code departs from it. The configuration of
    [Examples.mapsConfig] has [ios.config.googleMapsApiKey], as [_.has]
    finds when it is given the path as a string; line 52 gives [_.has] an
    arrow function, which lodash reads as the path [_ => _], [ios],
    [config], [googleMapsApiKey], so the key is not found, [googleMaps] is
    entered in [servicesDisabled] with the reason that the key does not
    exist, and the run prints it. *)
Theorem googleMaps_disabled_despite_key :
  Lodash.has (Some Examples.mapsConfig) "ios.config.googleMapsApiKey" = true
  ∧ Lodash.castPath Client.googleMapsPath Examples.mapsConfig
    = ["_ => _"; "ios"; "config"; "googleMapsApiKey"]
  ∧ Lodash.has (Some Examples.mapsConfig) Client.googleMapsPath = false
  ∧ Client.googleMapsService "/project/app.json" (Some Examples.mapsConfig)
      Client.initialServices
    = [("pushNotifications",
        "not yet available until API tokens are supported for the Push Notification system");
       ("googleMaps",
        "ios.config.googleMapsApiKey does not exist in configuration file found in /project/app.json")]
  ∧ List.filter isServicesTable
      (trace (Client.run Examples.withMapsKey "/project" Examples.noOptions).2)
    = [LogTable ["Service"; "Reason"]
         [["Push Notifications";
           "not yet available until API tokens are supported for the Push Notification system"];
          ["Google Maps";
           "ios.config.googleMapsApiKey does not exist in configuration file found in /project/app.json"]]].
Proof. repeat split; vm_compute; reflexivity. Qed.



End ClientFacts.

(** ** The bundler-configuration builder *)

Module WebpackFacts.

Import Model Webpack.

Section Builder.

Context {InputFields Fields Arguments Configuration : Type}.
Variable validateEnvironment :
  @InputEnvironment InputFields → outcome (@Environment Fields).
Variable webpackConfig :
  @Environment Fields → Arguments → outcome Configuration.
Variable noArguments : Arguments.

(** What is assumed of the two functions that are not among the sources,
    for the flag to be toggled: validation hands the flag on as it finds
    it, and the configuration is computed without looking at it. *)
Hypothesis validate_hands_info_on : ∀ b env,
  validateEnvironment (withInputInfo b env)
  = andThen (validateEnvironment env) (λ e, Resolved (withInfo b e)).
Hypothesis config_ignores_info : ∀ b environment argv,
  webpackConfig (withInfo b environment) argv = webpackConfig environment argv.


End Builder.


End WebpackFacts.
